(** * EyeCheck-Flask: the detection pipeline of [app.py]

    A shallow embedding of [preprocess_image], [tflite_detect_image],
    [detect] and [get_image], and the properties of the post-processing
    (confidence filter, pixel boxes, label lookup, ordering, left/right
    relabelling, text labels) and of the single-use image hand-off.

    Numbers.  Scores, box coordinates and class indices leave the model
    as finite binary floating-point numbers.  Every such number is a
    rational; comparison, [float(..)] and [int(..)] are exact on them,
    and so are, evaluated in double precision, the product of a
    single-precision number with an image dimension or with 100 and the
    halving of a sum of two pixel coordinates.  They are modelled on [Q]
    with exact arithmetic.  NaN and infinities are outside the model.
    Where NumPy evaluates in single precision instead, a threshold that
    single precision does not hold is rounded before the comparison and a
    scaled coordinate is rounded or, beyond the format's range, becomes
    infinite; the properties that depend on this carry the hypothesis
    that rules it out ([is_float32], [normalised], image sides below
    2^24), the others hold either way. *)

From Stdlib Require Import ZArith QArith String Ascii List Sorted Lia DecimalString.
From stdpp Require Import base list strings gmap.

Local Open Scope Z_scope.

(** ** Python values and exceptions *)

Inductive exn : Type :=
  | IndexError
  | KeyError
  | TypeError
  | ValueError
  | OSError
  | UnidentifiedImageError
  | BinasciiError
  | HTTPException (code : Z).

Inductive result (A : Type) : Type :=
  | Ok (a : A)
  | Raise (e : exn).
Arguments Ok {A} a.
Arguments Raise {A} e.

Definition bind {A B : Type} (r : result A) (k : A → result B) : result B :=
  match r with
  | Ok a => k a
  | Raise e => Raise e
  end.

Notation "x ←! r ; k" := (bind r (fun x => k))
  (at level 20, r at level 100, k at level 200, right associativity,
   format "x  ←!  r ;  '/' k").

(** [x < y] on floats, as a boolean. *)
Definition float_lt (x y : Q) : bool :=
  match (x ?= y)%Q with
  | Lt => true
  | _ => false
  end.

(** [int(x)]: truncation toward zero. *)
Definition py_int (x : Q) : Z := Z.quot (Qnum x) (Zpos (Qden x)).

(** [max(a, b)] of two arguments keeps [a] unless [b > a];
    [min(a, b)] keeps [a] unless [b < a]. *)
Definition py_max (a b : Q) : Q := if float_lt a b then b else a.
Definition py_min (a b : Q) : Q := if float_lt b a then b else a.

(** [str(n)] of an integer. *)
Definition py_str (n : Z) : string := NilZero.string_of_int (Z.to_int n).

(** [l[k]] on a Python list: a negative [k] counts from the end. *)
Definition py_getitem {A : Type} (l : list A) (k : Z) : result A :=
  let n := Z.of_nat (length l) in
  let j := if k <? 0 then k + n else k in
  if (j <? 0) || (n <=? j) then Raise IndexError
  else match l !! Z.to_nat j with
       | Some x => Ok x
       | None => Raise IndexError
       end.

(** [a[i]] on a numpy array, for a loop index [i >= 0]. *)
Definition np_getitem {A : Type} (a : list A) (i : nat) : result A :=
  match a !! i with
  | Some x => Ok x
  | None => Raise IndexError
  end.

(** ** Detections *)

(** A row of the model's [boxes] output: normalised
    [ymin, xmin, ymax, xmax], read as [boxes[i][0]] .. [boxes[i][3]]. *)
Record RawBox : Type := mkRawBox { rb0 : Q; rb1 : Q; rb2 : Q; rb3 : Q }.

(** The ["box"] entry [[xmin, ymin, xmax, ymax]] of a detection. *)
Record PixelBox : Type := mkPixelBox { xmin : Z; ymin : Z; xmax : Z; ymax : Z }.

(** The dictionary appended per kept index. *)
Record Detection : Type := mkDetection {
  object : string;
  confidence : Q;
  box : PixelBox
}.

Definition set_object (d : Detection) (name : string) : Detection :=
  {| object := name; confidence := confidence d; box := box d |}.

(** Body of the [if scores[i] > min_conf] branch (lines 60-69). *)
Definition detection_at (imH imW : Z) (labels : list string)
    (boxes : list RawBox) (classes : list Q) (s : Q) (i : nat) : result Detection :=
  b ←! np_getitem boxes i;
  let ymin_ := py_int (py_max 1 (rb0 b * inject_Z imH)) in
  let xmin_ := py_int (py_max 1 (rb1 b * inject_Z imW)) in
  let ymax_ := py_int (py_min (inject_Z imH) (rb2 b * inject_Z imH)) in
  let xmax_ := py_int (py_min (inject_Z imW) (rb3 b * inject_Z imW)) in
  c ←! np_getitem classes i;
  object_name ←! py_getitem labels (py_int c);
  Ok {| object := object_name;
        confidence := s;
        box := {| xmin := xmin_; ymin := ymin_; xmax := xmax_; ymax := ymax_ |} |}.

(** The loop [for i in range(len(scores))] (lines 58-69), started at
    index [i] with the scores from [i] on; detections are appended in
    index order, and the first exception ends the loop. *)
Fixpoint collect_from (imH imW : Z) (labels : list string) (boxes : list RawBox)
    (classes : list Q) (min_conf : Q) (i : nat) (rest : list Q) : result (list Detection) :=
  match rest with
  | [] => Ok []
  | s :: rest' =>
      if float_lt min_conf s then
        d ←! detection_at imH imW labels boxes classes s i;
        ds ←! collect_from imH imW labels boxes classes min_conf (S i) rest';
        Ok (d :: ds)
      else collect_from imH imW labels boxes classes min_conf (S i) rest'
  end.

Definition collect_detections (imH imW : Z) (labels : list string) (boxes : list RawBox)
    (classes scores : list Q) (min_conf : Q) : result (list Detection) :=
  collect_from imH imW labels boxes classes min_conf 0%nat scores.

(** [sorted(detections, key=lambda x: x['confidence'], reverse=True)]
    (line 71).  Python's sort is stable, also under [reverse=True], and a
    stable sort has one possible result; it is computed here by insertion,
    an element going in front of the first one whose key is not greater. *)
Fixpoint insert_desc (d : Detection) (l : list Detection) : list Detection :=
  match l with
  | [] => [d]
  | y :: l' =>
      if float_lt (confidence d) (confidence y) then y :: insert_desc d l'
      else d :: y :: l'
  end.

Fixpoint sorted_desc (l : list Detection) : list Detection :=
  match l with
  | [] => []
  | d :: l' => insert_desc d (sorted_desc l')
  end.

(** [(d['box'][0] + d['box'][2]) / 2] *)
Definition center_x (d : Detection) : Q :=
  (inject_Z (xmin (box d) + xmax (box d)) / 2)%Q.

(** Lines 74-87: the relabelling by count. *)
Definition relabel_eyes (imW : Z) (detections : list Detection) : list Detection :=
  match detections with
  | [d0; d1] =>
      if float_lt (center_x d0) (center_x d1)
      then [set_object d0 "left_eye"; set_object d1 "right_eye"]
      else [set_object d0 "right_eye"; set_object d1 "left_eye"]
  | [d0] =>
      if float_lt (center_x d0) (inject_Z imW / 2)%Q
      then [set_object d0 "left_eye"]
      else [set_object d0 "right_eye"]
  | _ => detections
  end.

(** Lines 56-87 together: what [tflite_detect_image] does with the
    three output tensors. *)
Definition postprocess (imH imW : Z) (labels : list string) (boxes : list RawBox)
    (classes scores : list Q) (min_conf : Q) : result (list Detection) :=
  kept ←! collect_detections imH imW labels boxes classes scores min_conf;
  Ok (relabel_eyes imW (sorted_desc kept)).

(** Two detections that differ at most in their label. *)
Definition same_but_label (d e : Detection) : Prop :=
  confidence e = confidence d ∧ box e = box d.

(** [d] may stand in front of [e] in a descending list. *)
Definition geq_conf (d e : Detection) : Prop := (confidence e <= confidence d)%Q.

(** The detections whose confidence is [c]. *)
Definition has_confidence (c : Q) (d : Detection) : bool := Qeq_bool (confidence d) c.

(** ** Annotation (lines 89-93) *)

Inductive draw_cmd : Type :=
  | Rectangle (x1 y1 x2 y2 : Z)
  | PutText (text : string) (x y : Z).

(** [f"{detection['object']}: {int(detection['confidence'] * 100)}%"] *)
Definition detection_label (d : Detection) : string :=
  object d +:+ ": " +:+ py_str (py_int (confidence d * 100)) +:+ "%".

Definition draw_detection (d : Detection) : list draw_cmd :=
  [ Rectangle (xmin (box d)) (ymin (box d)) (xmax (box d)) (ymax (box d));
    PutText (detection_label d) (xmin (box d)) (ymin (box d) - 10) ].

Definition draw_detections (detections : list Detection) : list draw_cmd :=
  concat (map draw_detection detections).

(** ** Images, the model and the scratch directory *)

(** A decoded PIL image: [size = (im_width, im_height)], [im_bands]
    channels and the pixel buffer. *)
Record Image : Type := mkImage {
  im_width : Z;
  im_height : Z;
  im_bands : Z;
  im_pixels : list Z
}.

(** A numpy array of pixels with its [shape]. *)
Record ndarray : Type := mkNdarray { shape : list Z; data : list Z }.

(** The three output tensors read after [invoke] (lines 52-54). *)
Record Outputs : Type := mkOutputs {
  out_boxes : list RawBox;
  out_classes : list Q;
  out_scores : list Q
}.

(** Files of [tempfile.gettempdir()], by base name. *)
Abbreviation tempdir := (gmap string (list Z)).

(** ** HTTP responses *)

Inductive body : Type :=
  | JsonError (error : string)
  | JsonDetections (detections : list Detection) (image_url : string)
  | JpegFile (content : list Z)
  | ServerErrorPage
  | HttpErrorPage.

Record Response : Type := mkResponse { status : Z; payload : body }.

(** What Flask answers for a view: the view's response; the error page
    with its own status code when the view raised an HTTP error; status
    500 when it let any other exception escape. *)
Definition flask_response (r : result Response) : Response :=
  match r with
  | Ok resp => resp
  | Raise (HTTPException code) => {| status := code; payload := HttpErrorPage |}
  | Raise _ => {| status := 500; payload := ServerErrorPage |}
  end.

(** ** The request body

    What [request.get_json()] (line 106) does: it raises an HTTP error
    (a body that is not JSON), or it yields the parsed value.  Of the
    parsed value the view looks only at its kind, at the [image] entry,
    and at whether that entry is a string. *)

Inductive field : Type :=
  | FStr (s : string)
  | FOther.                        (* null, a boolean, a number, a list, an object *)

Global Instance field_eq_dec : EqDecision field.
Proof. solve_decision. Defined.

Inductive json_data : Type :=
  | JObject (m : gmap string field)
  | JArray (elems : list field)
  | JString (s : string)
  | JScalar.                       (* null, a boolean or a number *)

Inductive get_json_result : Type :=
  | Parsed (data : json_data)
  | Aborted (code : Z).

(** [key in data] *)
Definition py_contains (key : string) (data : json_data) : result bool :=
  match data with
  | JObject m => Ok (bool_decide (is_Some (m !! key)))
  | JArray elems => Ok (bool_decide (FStr key ∈ elems))
  | JString s => Ok (bool_decide (is_Some (String.index 0 key s)))
  | JScalar => Raise TypeError
  end.

(** [data[key]] for a string [key] *)
Definition py_subscript (data : json_data) (key : string) : result field :=
  match data with
  | JObject m => match m !! key with
                 | Some v => Ok v
                 | None => Raise KeyError
                 end
  | JArray _ | JString _ | JScalar => Raise TypeError
  end.

Section Pipeline.

(** The library calls whose results the code only passes on. *)
Variable image_open : list Z → option Image.     (* [Image.open(io.BytesIO(b))]; [None]: not identified *)
Variable rgb_pixels : Image → option (list Z).   (* pixel buffer of [convert('RGB')]; [None]: the data do not load *)
Variable resample : Image → Z → Z → list Z.      (* pixel buffer of [resize((w, h))] *)
Variable run_model : ndarray → Outputs.          (* normalise, [invoke], [get_tensor] *)
Variable imwrite_jpg : ndarray → list draw_cmd → list Z.  (* the encoded annotated image *)
Variable mktemp : tempdir → string.              (* name picked by [NamedTemporaryFile] *)
Variable b64decode : string → result (list Z).   (* [base64.b64decode] *)

(** The globals loaded at start-up (lines 28-31). *)
Variable input_shape : list Z.
Variable labels : list string.

(** [image.convert('RGB')]: the pixel data are read only now, and a file
    whose header [Image.open] accepted may fail here with [OSError]. *)
Definition pil_convert_rgb (im : Image) : result Image :=
  match rgb_pixels im with
  | None => Raise OSError
  | Some px => Ok {| im_width := im_width im; im_height := im_height im;
                     im_bands := 3; im_pixels := px |}
  end.

(** [image.resize((w, h))]: the argument is (width, height). *)
Definition pil_resize (im : Image) (w h : Z) : result Image :=
  if (w <=? 0) || (h <=? 0) then Raise ValueError
  else Ok {| im_width := w; im_height := h;
             im_bands := im_bands im; im_pixels := resample im w h |}.

(** [np.array(image)]: shape (height, width, bands). *)
Definition np_array (im : Image) : ndarray :=
  {| shape := [im_height im; im_width im; im_bands im]; data := im_pixels im |}.

(** Lines 35-40. *)
Definition preprocess_image (image : list Z) (input_shape : list Z) : result ndarray :=
  match image_open image with
  | None => Raise UnidentifiedImageError
  | Some im =>
      im ←! pil_convert_rgb im;
      s1 ←! py_getitem input_shape 1;
      s2 ←! py_getitem input_shape 2;
      image_resized ←! pil_resize im s1 s2;
      Ok (np_array image_resized)
  end.

(** [interpreter.set_tensor] refuses an array whose shape, after
    [np.expand_dims(.., axis=0)], is not the input tensor's. *)
Definition set_tensor_check (image_np : ndarray) : result unit :=
  if decide (1 :: shape image_np = input_shape) then Ok tt else Raise ValueError.

(** Lines 44-100.  The result carries the base name of the file
    written and the scratch directory after the call. *)
Definition tflite_detect_image (image_data : list Z) (min_conf : Q) (fs : tempdir)
    : result (list Detection * string * tempdir) :=
  image_np ←! preprocess_image image_data input_shape;
  _ ←! set_tensor_check image_np;
  let out := run_model image_np in
  match shape image_np with
  | [imH; imW; _] =>
      detections ←! postprocess imH imW labels (out_boxes out) (out_classes out)
                      (out_scores out) min_conf;
      let temp_file := mktemp fs in
      Ok (detections, temp_file,
          <[temp_file := imwrite_jpg image_np (draw_detections detections)]> fs)
  | _ => Raise ValueError
  end.

(** [base64.b64decode(v)] on an entry of the body: only a string is
    decoded. *)
Definition b64decode_field (v : field) : result (list Z) :=
  match v with
  | FStr img => b64decode img
  | FOther => Raise TypeError
  end.

(** Lines 103-128: the view of [POST /detect], for a request to [host]
    whose [get_json()] does [req]. *)
Definition detect (host : string) (req : get_json_result) (fs : tempdir)
    : result Response * tempdir :=
  match req with
  | Aborted code => (Raise (HTTPException code), fs)
  | Parsed data =>
      match py_contains "image" data with
      | Raise e => (Raise e, fs)
      | Ok false => (Ok {| status := 400; payload := JsonError "No image part" |}, fs)
      | Ok true =>
          match (v ←! py_subscript data "image"; b64decode_field v) with
          | Raise e => (Raise e, fs)
          | Ok [] => (Ok {| status := 400; payload := JsonError "No selected image" |}, fs)
          | Ok image_data =>
              match tflite_detect_image image_data (1 # 2) fs with
              | Raise e => (Raise e, fs)
              | Ok (detections, temp_image, fs') =>
                  (Ok {| status := 200;
                         payload := JsonDetections detections
                                      ("http://" +:+ host +:+ "/image/" +:+ temp_image) |},
                   fs')
              end
          end
      end
  end.

(** Lines 131-143: the view of [GET /image/<filename>].  [send_file]
    opens the file before [os.remove] unlinks it, so the response still
    carries its content. *)
Definition get_image (filename : string) (fs : tempdir) : result Response * tempdir :=
  match fs !! filename with
  | None => (Ok {| status := 404; payload := JsonError "File not found" |}, fs)
  | Some content =>
      (Ok {| status := 200; payload := JpegFile content |}, delete filename fs)
  end.

(** A run of [GET /image/..] requests, one after the other. *)
Fixpoint get_images (filenames : list string) (fs : tempdir) : tempdir :=
  match filenames with
  | [] => fs
  | f :: rest => get_images rest (snd (get_image f fs))
  end.

End Pipeline.

(** ** The label file (lines 30-31)

    [text] is what reading [labelmap.txt] in text mode yields, every line
    end already a single newline character; a character of the model is
    a code point below 256. *)

Definition newline : ascii := "010"%char.

(** [c.isspace()] for a character below 256: tab to carriage return, the
    four separators 28 to 31, the space, next line (133) and the
    no-break space (160). *)
Definition py_isspace (c : ascii) : bool :=
  let n := N_of_ascii c in
  ((9 <=? n) && (n <=? 13) || (28 <=? n) && (n <=? 32) || (n =? 133) || (n =? 160))%N.

Fixpoint lstrip (s : string) : string :=
  match s with
  | EmptyString => EmptyString
  | String c rest => if py_isspace c then lstrip rest else s
  end.

Fixpoint rstrip (s : string) : string :=
  match s with
  | EmptyString => EmptyString
  | String c rest =>
      match rstrip rest with
      | EmptyString => if py_isspace c then EmptyString else String c EmptyString
      | r => String c r
      end
  end.

(** [s.strip()] *)
Definition py_strip (s : string) : string := rstrip (lstrip s).

(** [f.readlines()]: the lines with their newline, the last one without
    if the text does not end in one. *)
Fixpoint readlines (text : string) : list string :=
  match text with
  | EmptyString => []
  | String c rest =>
      if Ascii.eqb c newline then String c EmptyString :: readlines rest
      else match readlines rest with
           | [] => [String c EmptyString]
           | l :: ls => String c l :: ls
           end
  end.

(** [[line.strip() for line in f.readlines()]] *)
Definition load_labels (text : string) : list string := map py_strip (readlines text).

(** A text with the given lines, each ended by a newline. *)
Fixpoint write_lines (lines : list string) : string :=
  match lines with
  | [] => EmptyString
  | l :: rest => l +:+ String newline (write_lines rest)
  end.

Definition first_char (s : string) : option ascii :=
  match s with
  | EmptyString => None
  | String c _ => Some c
  end.

Fixpoint last_char (s : string) : option ascii :=
  match s with
  | EmptyString => None
  | String c EmptyString => Some c
  | String _ rest => last_char rest
  end.

Fixpoint no_newline (s : string) : bool :=
  match s with
  | EmptyString => true
  | String c rest => negb (Ascii.eqb c newline) && no_newline rest
  end.

(** Neither end of [s] is white space. *)
Definition trimmed (s : string) : Prop :=
  (∀ c, first_char s = Some c → py_isspace c = false) ∧
  (∀ c, last_char s = Some c → py_isspace c = false).

(** The answers to a run of [GET /image/..] requests, in order. *)
Fixpoint get_image_responses (filenames : list string) (fs : tempdir)
    : list (result Response) :=
  match filenames with
  | [] => []
  | f :: rest => fst (get_image f fs) :: get_image_responses rest (snd (get_image f fs))
  end.

(** A number that single precision holds exactly: an integer of fewer
    than 25 bits times a power of two in the format's range. *)
Definition is_float32 (q : Q) : Prop :=
  ∃ m e : Z, Z.abs m < 2 ^ 24 ∧ -149 ≤ e ≤ 104 ∧ (q == inject_Z m * 2 ^ e)%Q.

(** A raw box whose four entries lie in [0, 1]. *)
Definition normalised (b : RawBox) : Prop :=
  (0 <= rb0 b <= 1)%Q ∧ (0 <= rb1 b <= 1)%Q ∧ (0 <= rb2 b <= 1)%Q ∧ (0 <= rb3 b <= 1)%Q.

(** ** A sample installation

    Stand-ins for the library calls, used to run the pipeline on concrete
    requests: the decoder accepts what starts with the JPEG marker
    [FF D8] as a 640x480 picture and what starts with [P6] as a picture
    whose pixel data are cut off, the model is square (320x320) and
    reports two eyes, and [b64decode] knows the payloads used below
    ([/9g=] is [FF D8], [UDY=] is [P6], [AQ==] is the single byte [01]). *)

Definition sample_open (b : list Z) : option Image :=
  match b with
  | 255 :: 216 :: _ => Some (mkImage 640 480 3 [0])
  | 80 :: 54 :: _ => Some (mkImage 2 2 3 [])
  | _ => None
  end.

Definition sample_rgb (im : Image) : option (list Z) :=
  match im_pixels im with
  | [] => None
  | px => Some px
  end.

Definition sample_resample (im : Image) (w h : Z) : list Z := [].

Definition sample_model (a : ndarray) : Outputs :=
  {| out_boxes := [mkRawBox (1 # 4) (5 # 8) (1 # 2) (7 # 8);
                   mkRawBox (1 # 4) (1 # 8) (1 # 2) (3 # 8)];
     out_classes := [0%Q; 0%Q];
     out_scores := [(7 # 8)%Q; (3 # 4)%Q] |}.

Definition sample_imwrite (a : ndarray) (cmds : list draw_cmd) : list Z :=
  [255; 216; 255; 217].

Definition sample_mktemp (fs : tempdir) : string := "tmpk3v9x1.jpg".

Definition sample_b64decode (s : string) : result (list Z) :=
  if decide (s = "/9g=") then Ok [255; 216]
  else if decide (s = "UDY=") then Ok [80; 54]
  else if decide (s = "AQ==") then Ok [1]
  else Raise BinasciiError.

(** * Properties *)

(** ** Numbers *)

Lemma float_lt_true (x y : Q) : float_lt x y = true ↔ (x < y)%Q.
Proof.
  unfold float_lt. rewrite Qlt_alt.
  destruct (x ?= y)%Q; split; congruence.
Qed.

Lemma float_lt_false (x y : Q) : float_lt x y = false ↔ (y <= x)%Q.
Proof.
  rewrite <- not_true_iff_false, float_lt_true.
  split; [apply Qnot_lt_le | apply Qle_not_lt].
Qed.

Lemma py_int_inject (n : Z) : py_int (inject_Z n) = n.
Proof. unfold py_int. simpl. apply Z.quot_1_r. Qed.

(** Truncation is monotone. *)
Lemma py_int_mono (x y : Q) : (x <= y)%Q → py_int x ≤ py_int y.
Proof.
  destruct x as [a b], y as [c d]. unfold Qle, py_int. simpl. intros Hle.
  rewrite <- (Z.quot_mul_cancel_r a (Z.pos b) (Z.pos d)) by lia.
  rewrite <- (Z.quot_mul_cancel_r c (Z.pos d) (Z.pos b)) by lia.
  rewrite (Z.mul_comm (Z.pos d) (Z.pos b)).
  apply Z.quot_le_mono; lia.
Qed.

Lemma py_max_lower (a b : Q) : (a <= py_max a b)%Q.
Proof.
  unfold py_max. destruct (float_lt a b) eqn:E.
  - apply Qlt_le_weak, float_lt_true, E.
  - apply Qle_refl.
Qed.

Lemma py_min_upper (a b : Q) : (py_min a b <= a)%Q.
Proof.
  unfold py_min. destruct (float_lt b a) eqn:E.
  - apply Qlt_le_weak, float_lt_true, E.
  - apply Qle_refl.
Qed.

Lemma py_max_upper (a b : Q) : (a <= b)%Q → (py_max a b <= b)%Q.
Proof. unfold py_max. destruct (float_lt a b); [intros; apply Qle_refl | done]. Qed.

Lemma py_max_le (a b c : Q) : (a <= c)%Q → (b <= c)%Q → (py_max a b <= c)%Q.
Proof. unfold py_max. by destruct (float_lt a b). Qed.

Lemma py_min_lower (a b c : Q) : (c <= a)%Q → (c <= b)%Q → (c <= py_min a b)%Q.
Proof. unfold py_min. by destruct (float_lt b a). Qed.

(** [int] of a non-negative number is its floor, of a non-positive one
    its ceiling. *)
Lemma py_int_nonneg (x : Q) :
  (0 <= x)%Q → (inject_Z (py_int x) <= x)%Q ∧ (x < inject_Z (py_int x) + 1)%Q.
Proof.
  destruct x as [a b]. unfold Qle, Qlt, py_int. simpl. intros Ha.
  assert (0 ≤ a) by lia.
  rewrite Z.quot_div_nonneg by lia.
  pose proof (Z.mul_div_le a (Z.pos b)) as H1.
  pose proof (Z.mul_succ_div_gt a (Z.pos b)) as H2.
  split; [lia|]. unfold Qplus. simpl. nia.
Qed.

Lemma py_int_nonpos (x : Q) :
  (x <= 0)%Q → (inject_Z (py_int x) - 1 < x)%Q ∧ (x <= inject_Z (py_int x))%Q.
Proof.
  destruct x as [a b]. unfold Qle, Qlt, py_int. simpl. intros Ha.
  assert (Hq : a ÷ Z.pos b = - ((- a) / Z.pos b)).
  { rewrite <- (Z.opp_involutive a) at 1.
    rewrite Z.quot_opp_l by lia. rewrite Z.quot_div_nonneg by lia. done. }
  rewrite Hq.
  pose proof (Z.mul_div_le (- a) (Z.pos b)) as H1.
  pose proof (Z.mul_succ_div_gt (- a) (Z.pos b)) as H2.
  split; [unfold Qminus, Qplus, Qopp; simpl; nia | nia].
Qed.

(** ** The filter loop *)

Lemma bind_ok {A B : Type} (r : result A) (k : A → result B) (b : B) :
  bind r k = Ok b → ∃ a, r = Ok a ∧ k a = Ok b.
Proof. destruct r as [a|e]; simpl; [eauto | discriminate]. Qed.

Lemma np_getitem_ok {A : Type} (a : list A) (i : nat) (x : A) :
  np_getitem a i = Ok x ↔ a !! i = Some x.
Proof. unfold np_getitem. destruct (a !! i); split; congruence. Qed.

Ltac bind_inv H :=
  repeat match type of H with
  | bind _ _ = Ok _ =>
      let a := fresh "a" in let Ha := fresh "Ha" in
      apply bind_ok in H as (a & Ha & H)
  end.

Lemma detection_at_ok imH imW labels boxes classes s i d :
  detection_at imH imW labels boxes classes s i = Ok d →
  ∃ b c, boxes !! i = Some b ∧ classes !! i = Some c ∧
    py_getitem labels (py_int c) = Ok (object d) ∧
    confidence d = s ∧
    box d = {| xmin := py_int (py_max 1 (rb1 b * inject_Z imW));
               ymin := py_int (py_max 1 (rb0 b * inject_Z imH));
               xmax := py_int (py_min (inject_Z imW) (rb3 b * inject_Z imW));
               ymax := py_int (py_min (inject_Z imH) (rb2 b * inject_Z imH)) |}.
Proof.
  unfold detection_at. intros H. bind_inv H.
  apply np_getitem_ok in Ha, Ha0. injection H as <-. simpl.
  eexists _, _. eauto.
Qed.

Lemma collect_from_elem imH imW labels boxes classes min_conf rest :
  ∀ i ds, collect_from imH imW labels boxes classes min_conf i rest = Ok ds →
  ∀ d, d ∈ ds →
  ∃ j s, rest !! j = Some s ∧ (min_conf < s)%Q ∧
         detection_at imH imW labels boxes classes s (i + j) = Ok d.
Proof.
  induction rest as [|s rest IH]; intros i ds H d Hd; simpl in H.
  - injection H as <-. by apply elem_of_nil in Hd.
  - destruct (float_lt min_conf s) eqn:Hs.
    + bind_inv H. injection H as <-.
      apply elem_of_cons in Hd as [->|Hd].
      * exists 0%nat, s. rewrite Nat.add_0_r. by apply float_lt_true in Hs.
      * destruct (IH _ _ Ha0 _ Hd) as (j & s' & ? & ? & ?).
        exists (S j), s'. by rewrite Nat.add_succ_r.
    + destruct (IH _ _ H _ Hd) as (j & s' & ? & ? & ?).
      exists (S j), s'. by rewrite Nat.add_succ_r.
Qed.

Lemma collect_detections_elem imH imW labels boxes classes scores min_conf kept d :
  collect_detections imH imW labels boxes classes scores min_conf = Ok kept →
  d ∈ kept →
  ∃ i s, scores !! i = Some s ∧ (min_conf < s)%Q ∧
         detection_at imH imW labels boxes classes s i = Ok d.
Proof. intros H Hd. exact (collect_from_elem _ _ _ _ _ _ _ _ _ H _ Hd). Qed.

(** ** Ordering *)

Lemma insert_desc_perm d l : insert_desc d l ≡ₚ d :: l.
Proof.
  induction l as [|y l IH]; simpl; [done|].
  destruct (float_lt (confidence d) (confidence y)); [|done].
  rewrite IH. apply Permutation_swap.
Qed.

Lemma sorted_desc_perm l : sorted_desc l ≡ₚ l.
Proof.
  induction l as [|d l IH]; simpl; [done|].
  by rewrite insert_desc_perm, IH.
Qed.

(** ** Relabelling *)

Lemma relabel_eyes_same imW l : Forall2 same_but_label l (relabel_eyes imW l).
Proof.
  unfold relabel_eyes.
  destruct l as [|d0 [|d1 [|d2 l]]]; try (apply Forall2_same_length_lookup_2; [done|];
    intros i x y Hx Hy; rewrite Hx in Hy; injection Hy as <-; by split).
  - destruct (float_lt _ _); repeat constructor.
  - destruct (float_lt _ _); repeat constructor.
Qed.

Lemma postprocess_ok imH imW labels boxes classes scores min_conf dets :
  postprocess imH imW labels boxes classes scores min_conf = Ok dets →
  ∃ kept, collect_detections imH imW labels boxes classes scores min_conf = Ok kept ∧
          dets = relabel_eyes imW (sorted_desc kept).
Proof.
  unfold postprocess. intros H. bind_inv H. injection H as <-. eauto.
Qed.

(** Every detection returned is a kept one, up to its label. *)
Lemma postprocess_elem imH imW labels boxes classes scores min_conf dets d :
  postprocess imH imW labels boxes classes scores min_conf = Ok dets →
  d ∈ dets →
  ∃ d0 i s, same_but_label d0 d ∧ scores !! i = Some s ∧ (min_conf < s)%Q ∧
            detection_at imH imW labels boxes classes s i = Ok d0.
Proof.
  intros (kept & Hk & ->)%postprocess_ok Hd.
  pose proof (relabel_eyes_same imW (sorted_desc kept)) as HF.
  apply list_elem_of_lookup in Hd as [n Hn].
  destruct (Forall2_lookup_r _ _ _ _ _ HF Hn) as (d0 & Hd0 & Hsame).
  assert (d0 ∈ kept) as Hin.
  { rewrite <- (sorted_desc_perm kept). apply list_elem_of_lookup; eauto. }
  destruct (collect_detections_elem _ _ _ _ _ _ _ _ _ Hk Hin) as (i & s & ? & ? & ?).
  eauto 10.
Qed.

(** ** Kept detections: confidence and pixel boxes *)

(** C1, as the code has it.  Every detection that [tflite_detect_image]
    keeps has a confidence strictly above [min_conf]; its [xmin] and
    [ymin] are at least 1 and its [xmax] and [ymax] at most the image
    width and height: each coordinate is clamped on one side only.  The
    detection is the one the loop made at some index [i] from the row
    [b = boxes[i]], and the full chain [1 ≤ xmin ≤ xmax ≤ W] holds for it
    when the image is at least one pixel wide and the raw box, scaled to
    pixels, ends at 1 or more, starts inside the image and does not end
    before it starts (the same for y); a box that starts at the left or
    top edge is included. *)
Theorem kept_detection_bounds imH imW labels boxes classes scores min_conf dets d :
  postprocess imH imW labels boxes classes scores min_conf = Ok dets →
  d ∈ dets →
  (min_conf < confidence d)%Q ∧
  1 ≤ xmin (box d) ∧ 1 ≤ ymin (box d) ∧
  xmax (box d) ≤ imW ∧ ymax (box d) ≤ imH ∧
  ∃ i b d0, scores !! i = Some (confidence d) ∧ boxes !! i = Some b ∧
    detection_at imH imW labels boxes classes (confidence d) i = Ok d0 ∧
    box d = box d0 ∧
    (1 ≤ imW → (1 <= rb3 b * inject_Z imW)%Q →
     (rb1 b * inject_Z imW <= inject_Z imW)%Q →
     (rb1 b * inject_Z imW <= rb3 b * inject_Z imW)%Q →
     xmin (box d) ≤ xmax (box d)) ∧
    (1 ≤ imH → (1 <= rb2 b * inject_Z imH)%Q →
     (rb0 b * inject_Z imH <= inject_Z imH)%Q →
     (rb0 b * inject_Z imH <= rb2 b * inject_Z imH)%Q →
     ymin (box d) ≤ ymax (box d)).
Proof.
  intros H Hd.
  destruct (postprocess_elem _ _ _ _ _ _ _ _ _ H Hd)
    as (d0 & i & s & [Hc Hb] & Hs & Hlt & Hat).
  pose proof Hat as Hat'.
  apply detection_at_ok in Hat' as (b & c & Hbi & _ & _ & Hconf & Hbox).
  rewrite Hc, Hb, Hconf, Hbox. simpl.
  assert (∀ q, 1 ≤ py_int (py_max 1 q)) as Hlo.
  { intros q. rewrite <- (py_int_inject 1) at 1. apply py_int_mono, py_max_lower. }
  assert (∀ n q, py_int (py_min (inject_Z n) q) ≤ n) as Hhi.
  { intros n q. rewrite <- (py_int_inject n) at 2. apply py_int_mono, py_min_upper. }
  assert (∀ n p q, 1 ≤ n → (1 <= q)%Q → (p <= inject_Z n)%Q → (p <= q)%Q →
            py_int (py_max 1 p) ≤ py_int (py_min (inject_Z n) q)) as Hmid.
  { intros n p q Hn H1 H2 H3. apply py_int_mono.
    apply py_max_le; apply py_min_lower; try done.
    change 1%Q with (inject_Z 1). by rewrite <- Zle_Qle. }
  repeat split; auto.
  exists i, b, d0. rewrite Hbox. repeat split; auto.
Qed.

(** C1 as stated fails: a thin box along the left edge, with normalised
    [xmin = 0] and [xmax = 1/1024] in a 320-pixel-wide image, is kept
    with [xmin = 1] and [xmax = 0]. *)
Lemma kept_detection_bounds_counterexample :
  ∃ d, postprocess 320 320 ["eye"] [mkRawBox (1 # 4) 0 (1 # 2) (1 # 1024)]
         [0%Q] [(7 # 8)%Q] (1 # 2) = Ok [d] ∧
       box d = mkPixelBox 1 80 0 160 ∧
       ¬ (1 ≤ xmin (box d) ∧ xmin (box d) ≤ xmax (box d) ∧ xmax (box d) ≤ 320).
Proof.
  exists (mkDetection "left_eye" (7 # 8) (mkPixelBox 1 80 0 160)).
  split; [reflexivity|]. split; [reflexivity|]. simpl. lia.
Qed.

Lemma kept_detection_bounds_witness :
  let d := mkDetection "left_eye" (7 # 8) (mkPixelBox 1 80 160 160) in
  (1 # 2 < confidence d)%Q ∧
  1 ≤ xmin (box d) ∧ xmin (box d) ≤ xmax (box d) ∧ xmax (box d) ≤ 320 ∧
  1 ≤ ymin (box d) ∧ ymin (box d) ≤ ymax (box d) ∧ ymax (box d) ≤ 320.
Proof.
  destruct (kept_detection_bounds 320 320 ["eye"] [mkRawBox (1 # 4) 0 (1 # 2) (1 # 2)]
              [0%Q] [(7 # 8)%Q] (1 # 2)
              [mkDetection "left_eye" (7 # 8) (mkPixelBox 1 80 160 160)]
              (mkDetection "left_eye" (7 # 8) (mkPixelBox 1 80 160 160)) eq_refl)
    as (Hc & Hx1 & Hy1 & Hx2 & Hy2 & i & b & d0 & _ & Hb & _ & _ & Hx & Hy).
  - apply list_elem_of_singleton. reflexivity.
  - destruct i as [|i]; [|destruct i; discriminate Hb]. injection Hb as <-.
    split; [exact Hc|]. split; [exact Hx1|].
    split; [apply Hx; [lia | discriminate | discriminate | discriminate]|].
    split; [exact Hx2|]. split; [exact Hy1|].
    split; [apply Hy; [lia | discriminate | discriminate | discriminate] | exact Hy2].
Defined.

(** ** Order of the returned list *)

Lemma insert_desc_sorted d l :
  Sorted geq_conf l → Sorted geq_conf (insert_desc d l).
Proof.
  induction l as [|y l IH]; simpl; intros Hs.
  - repeat constructor.
  - apply Sorted_inv in Hs as [Hs Hhd].
    destruct (float_lt (confidence d) (confidence y)) eqn:E.
    + constructor; [auto|].
      destruct l as [|z l]; simpl.
      * constructor. apply Qlt_le_weak, float_lt_true, E.
      * destruct (float_lt (confidence d) (confidence z)).
        -- constructor. by apply HdRel_inv in Hhd.
        -- constructor. apply Qlt_le_weak, float_lt_true, E.
    + constructor; [by constructor|].
      constructor. by apply float_lt_false.
Qed.

Lemma sorted_desc_sorted l : Sorted geq_conf (sorted_desc l).
Proof.
  induction l as [|d l IH]; simpl; [constructor | by apply insert_desc_sorted].
Qed.

Lemma Sorted_adjacent {A : Type} (R : A → A → Prop) (l : list A) :
  Sorted R l → ∀ i x y, l !! i = Some x → l !! S i = Some y → R x y.
Proof.
  induction 1 as [|a l Hs IH Hhd]; intros i x y Hx Hy; [done|].
  destruct i as [|i]; simpl in *.
  - injection Hx as <-. destruct l as [|b l]; [done|].
    injection Hy as <-. by apply HdRel_inv in Hhd.
  - eauto.
Qed.

(** Insertion leaves the detections of any one confidence in their order. *)
Lemma insert_desc_filter c d l :
  List.filter (has_confidence c) (insert_desc d l)
  = List.filter (has_confidence c) (d :: l).
Proof.
  induction l as [|y l IH]; [done|]. simpl insert_desc.
  destruct (float_lt (confidence d) (confidence y)) eqn:E; [|done].
  change (List.filter (has_confidence c) (y :: insert_desc d l))
    with (if has_confidence c y then y :: List.filter (has_confidence c) (insert_desc d l)
          else List.filter (has_confidence c) (insert_desc d l)).
  rewrite IH. simpl.
  destruct (has_confidence c d) eqn:Hd, (has_confidence c y) eqn:Hy; try done.
  exfalso. unfold has_confidence in *.
  apply Qeq_bool_iff in Hd, Hy. apply float_lt_true in E.
  rewrite Hd, Hy in E. by apply Qlt_irrefl in E.
Qed.

Lemma sorted_desc_filter c l :
  List.filter (has_confidence c) (sorted_desc l) = List.filter (has_confidence c) l.
Proof.
  induction l as [|d l IH]; [done|]. simpl sorted_desc.
  rewrite insert_desc_filter. simpl. by rewrite IH.
Qed.

Lemma Forall2_filter_same {A : Type} (R : A → A → Prop) (p : A → bool) l k :
  (∀ x y, R x y → p x = p y) →
  Forall2 R l k → Forall2 R (List.filter p l) (List.filter p k).
Proof.
  intros Hp. induction 1 as [|x y l k HR _ IH]; simpl; [constructor|].
  rewrite <- (Hp x y HR). destruct (p x); [by constructor | done].
Qed.

(** C7.  The list returned by [tflite_detect_image] is in descending
    order of confidence (each detection's confidence is at least the next
    one's), and the order is that of a stable sort: for every confidence
    value, the returned detections with that confidence are the kept ones
    with that confidence, in the order in which the loop kept them (the
    relabelling leaves confidence and box untouched). *)
Theorem detections_sorted_stable imH imW labels boxes classes scores min_conf dets :
  postprocess imH imW labels boxes classes scores min_conf = Ok dets →
  (∀ i d e, dets !! i = Some d → dets !! S i = Some e →
            (confidence e <= confidence d)%Q) ∧
  ∃ kept, collect_detections imH imW labels boxes classes scores min_conf = Ok kept ∧
    length dets = length kept ∧
    ∀ c, Forall2 same_but_label (List.filter (has_confidence c) kept)
                                (List.filter (has_confidence c) dets).
Proof.
  intros (kept & Hk & ->)%postprocess_ok.
  pose proof (relabel_eyes_same imW (sorted_desc kept)) as HF.
  split.
  - intros i d e Hd He.
    destruct (Forall2_lookup_r _ _ _ _ _ HF Hd) as (d0 & Hd0 & [Hc _]).
    destruct (Forall2_lookup_r _ _ _ _ _ HF He) as (e0 & He0 & [Hc' _]).
    rewrite Hc, Hc'.
    exact (Sorted_adjacent _ _ (sorted_desc_sorted kept) _ _ _ Hd0 He0).
  - exists kept. split; [done|]. split.
    + rewrite <- (Forall2_length _ _ _ HF). by rewrite (sorted_desc_perm kept).
    + intros c. rewrite <- (sorted_desc_filter c kept).
      apply Forall2_filter_same; [|done].
      intros x y [Hc _]. unfold has_confidence. by rewrite Hc.
Qed.

Lemma detections_sorted_stable_witness :
  let dets := [mkDetection "eye" (7 # 8) (mkPixelBox 200 80 280 160);
               mkDetection "eye" (3 # 4) (mkPixelBox 80 80 160 160);
               mkDetection "eye" (3 # 4) (mkPixelBox 40 80 120 160)] in
  (∀ i d e, dets !! i = Some d → dets !! S i = Some e →
            (confidence e <= confidence d)%Q) ∧
  ∃ kept, collect_detections 320 320 ["eye"]
            [mkRawBox (1 # 4) (1 # 4) (1 # 2) (1 # 2);
             mkRawBox (1 # 4) (5 # 8) (1 # 2) (7 # 8);
             mkRawBox (1 # 4) (1 # 8) (1 # 2) (3 # 8)]
            [0%Q; 0%Q; 0%Q] [(3 # 4)%Q; (7 # 8)%Q; (3 # 4)%Q] (1 # 2) = Ok kept ∧
    length dets = length kept ∧
    ∀ c, Forall2 same_but_label (List.filter (has_confidence c) kept)
                                (List.filter (has_confidence c) dets).
Proof.
  apply (detections_sorted_stable 320 320 ["eye"]
           [mkRawBox (1 # 4) (1 # 4) (1 # 2) (1 # 2);
            mkRawBox (1 # 4) (5 # 8) (1 # 2) (7 # 8);
            mkRawBox (1 # 4) (1 # 8) (1 # 2) (3 # 8)]
           [0%Q; 0%Q; 0%Q] [(3 # 4)%Q; (7 # 8)%Q; (3 # 4)%Q] (1 # 2)).
  reflexivity.
Defined.

(** ** Left and right *)

Lemma postprocess_sorted imH imW labels boxes classes scores min_conf kept :
  collect_detections imH imW labels boxes classes scores min_conf = Ok kept →
  postprocess imH imW labels boxes classes scores min_conf
  = Ok (relabel_eyes imW (sorted_desc kept)).
Proof. unfold postprocess. by intros ->. Qed.

(** C2.  When exactly two detections are left after filtering and
    sorting and their horizontal centres [(xmin + xmax) / 2] differ, the
    one with the smaller centre is returned with the label [left_eye] and
    the other with [right_eye], whatever labels the class table gave them;
    confidence, box and position in the list are unchanged. *)
Theorem two_detections_left_right imH imW labels boxes classes scores min_conf kept d0 d1 :
  collect_detections imH imW labels boxes classes scores min_conf = Ok kept →
  sorted_desc kept = [d0; d1] →
  ¬ (inject_Z (xmin (box d0) + xmax (box d0)) / 2
     == inject_Z (xmin (box d1) + xmax (box d1)) / 2)%Q →
  ∃ e0 e1,
    postprocess imH imW labels boxes classes scores min_conf = Ok [e0; e1] ∧
    same_but_label d0 e0 ∧ same_but_label d1 e1 ∧
    ((inject_Z (xmin (box d0) + xmax (box d0)) / 2
      < inject_Z (xmin (box d1) + xmax (box d1)) / 2)%Q →
     object e0 = "left_eye" ∧ object e1 = "right_eye") ∧
    ((inject_Z (xmin (box d1) + xmax (box d1)) / 2
      < inject_Z (xmin (box d0) + xmax (box d0)) / 2)%Q →
     object e1 = "left_eye" ∧ object e0 = "right_eye") ∧
    ((inject_Z (xmin (box d0) + xmax (box d0)) / 2
      < inject_Z (xmin (box d1) + xmax (box d1)) / 2)%Q ∨
     (inject_Z (xmin (box d1) + xmax (box d1)) / 2
      < inject_Z (xmin (box d0) + xmax (box d0)) / 2)%Q).
Proof.
  intros Hk Hs Hne. rewrite (postprocess_sorted _ _ _ _ _ _ _ _ Hk), Hs. simpl.
  unfold center_x.
  destruct (float_lt (inject_Z (xmin (box d0) + xmax (box d0)) / 2)
                     (inject_Z (xmin (box d1) + xmax (box d1)) / 2)) eqn:E.
  - apply float_lt_true in E. eexists _, _. split; [done|].
    split; [done|]. split; [done|]. split; [done|]. split; [|by left].
    intros Hgt. exfalso. exact (Qlt_irrefl _ (Qlt_trans _ _ _ E Hgt)).
  - apply float_lt_false in E.
    assert (inject_Z (xmin (box d1) + xmax (box d1)) / 2
            < inject_Z (xmin (box d0) + xmax (box d0)) / 2)%Q as Hlt.
    { apply Qle_lt_or_eq in E as [E|E]; [done|]. exfalso. apply Hne. by symmetry. }
    eexists _, _. split; [done|].
    split; [done|]. split; [done|]. split; [|split; [done|by right]].
    intros Hgt. exfalso. exact (Qlt_irrefl _ (Qlt_trans _ _ _ Hlt Hgt)).
Qed.

Lemma two_detections_left_right_witness :
  ∃ e0 e1,
    postprocess 200 200 ["iris"; "pupil"]
      [mkRawBox (1 # 4) (1 # 50) (1 # 2) (49 # 50); mkRawBox (1 # 4) (1 # 25) (1 # 2) (3 # 50)]
      [1%Q; 0%Q] [(7 # 8)%Q; (3 # 4)%Q] (1 # 2) = Ok [e0; e1] ∧
    same_but_label (mkDetection "pupil" (7 # 8) (mkPixelBox 4 50 196 100)) e0 ∧
    same_but_label (mkDetection "iris" (3 # 4) (mkPixelBox 8 50 12 100)) e1 ∧
    object e0 = "right_eye" ∧ object e1 = "left_eye".
Proof.
  destruct (two_detections_left_right 200 200 ["iris"; "pupil"]
      [mkRawBox (1 # 4) (1 # 50) (1 # 2) (49 # 50); mkRawBox (1 # 4) (1 # 25) (1 # 2) (3 # 50)]
      [1%Q; 0%Q] [(7 # 8)%Q; (3 # 4)%Q] (1 # 2) _
      (mkDetection "pupil" (7 # 8) (mkPixelBox 4 50 196 100))
      (mkDetection "iris" (3 # 4) (mkPixelBox 8 50 12 100))
      eq_refl eq_refl ltac:(vm_compute; discriminate))
    as (e0 & e1 & Hpost & Hs0 & Hs1 & _ & Hr & _).
  exists e0, e1. repeat split; try first [exact Hpost | apply Hs0 | apply Hs1];
    apply Hr; reflexivity.
Defined.

(** C8.  When exactly one detection is left, it is returned with the
    label [left_eye] if its horizontal centre [(xmin + xmax) / 2] is
    strictly less than half the image width, and with [right_eye]
    otherwise. *)
Theorem one_detection_left_right imH imW labels boxes classes scores min_conf kept d0 :
  collect_detections imH imW labels boxes classes scores min_conf = Ok kept →
  sorted_desc kept = [d0] →
  ∃ e0,
    postprocess imH imW labels boxes classes scores min_conf = Ok [e0] ∧
    same_but_label d0 e0 ∧
    ((inject_Z (xmin (box d0) + xmax (box d0)) / 2 < inject_Z imW / 2)%Q →
     object e0 = "left_eye") ∧
    (¬ (inject_Z (xmin (box d0) + xmax (box d0)) / 2 < inject_Z imW / 2)%Q →
     object e0 = "right_eye").
Proof.
  intros Hk Hs. rewrite (postprocess_sorted _ _ _ _ _ _ _ _ Hk), Hs. simpl.
  unfold center_x.
  destruct (float_lt (inject_Z (xmin (box d0) + xmax (box d0)) / 2)
                     (inject_Z imW / 2)) eqn:E.
  - apply float_lt_true in E. eexists. split; [done|]. split; [done|].
    split; [done|]. intros Hn. by destruct Hn.
  - apply float_lt_false in E. eexists. split; [done|]. split; [done|].
    split; [|done]. intros Hl. exfalso. exact (Qlt_irrefl _ (Qlt_le_trans _ _ _ Hl E)).
Qed.

Lemma one_detection_left_right_witness :
  (∃ e0,
    postprocess 200 200 ["eye"] [mkRawBox (1 # 4) (1 # 10) (1 # 2) (3 # 10)]
      [0%Q] [(7 # 8)%Q] (1 # 2) = Ok [e0] ∧
    same_but_label (mkDetection "eye" (7 # 8) (mkPixelBox 20 50 60 100)) e0 ∧
    object e0 = "left_eye") ∧
  (∃ e0,
    postprocess 200 200 ["eye"] [mkRawBox (1 # 4) (3 # 10) (1 # 2) (9 # 10)]
      [0%Q] [(7 # 8)%Q] (1 # 2) = Ok [e0] ∧
    same_but_label (mkDetection "eye" (7 # 8) (mkPixelBox 60 50 180 100)) e0 ∧
    object e0 = "right_eye").
Proof.
  split.
  - destruct (one_detection_left_right 200 200 ["eye"]
        [mkRawBox (1 # 4) (1 # 10) (1 # 2) (3 # 10)] [0%Q] [(7 # 8)%Q] (1 # 2) _
        (mkDetection "eye" (7 # 8) (mkPixelBox 20 50 60 100)) eq_refl eq_refl)
      as (e0 & Hpost & Hs0 & Hl & _).
    exists e0. repeat split; try first [exact Hpost | apply Hs0].
    apply Hl. reflexivity.
  - destruct (one_detection_left_right 200 200 ["eye"]
        [mkRawBox (1 # 4) (3 # 10) (1 # 2) (9 # 10)] [0%Q] [(7 # 8)%Q] (1 # 2) _
        (mkDetection "eye" (7 # 8) (mkPixelBox 60 50 180 100)) eq_refl eq_refl)
      as (e0 & Hpost & Hs0 & _ & Hr).
    exists e0. repeat split; try first [exact Hpost | apply Hs0].
    apply Hr. vm_compute. discriminate.
Defined.

(** C10.  When exactly two detections are left and their horizontal
    centres [(xmin + xmax) / 2] are equal, the comparison takes its [else]
    branch: the first detection of the sorted list is returned as
    [right_eye], the second as [left_eye].  The first is the one with the
    higher confidence, or, when the confidences are equal, the one the
    loop kept first. *)
Theorem two_detections_equal_centers imH imW labels boxes classes scores min_conf kept d0 d1 :
  collect_detections imH imW labels boxes classes scores min_conf = Ok kept →
  sorted_desc kept = [d0; d1] →
  (inject_Z (xmin (box d0) + xmax (box d0)) / 2
   == inject_Z (xmin (box d1) + xmax (box d1)) / 2)%Q →
  postprocess imH imW labels boxes classes scores min_conf
  = Ok [set_object d0 "right_eye"; set_object d1 "left_eye"] ∧
  (confidence d1 <= confidence d0)%Q ∧
  ((confidence d1 < confidence d0)%Q ∨ kept = [d0; d1]).
Proof.
  intros Hk Hs Heq. rewrite (postprocess_sorted _ _ _ _ _ _ _ _ Hk), Hs. simpl.
  unfold center_x.
  assert (float_lt (inject_Z (xmin (box d0) + xmax (box d0)) / 2)
                   (inject_Z (xmin (box d1) + xmax (box d1)) / 2) = false) as ->.
  { apply float_lt_false. rewrite Heq. apply Qle_refl. }
  split; [done|].
  assert (length kept = 2%nat) as Hlen.
  { rewrite <- (Permutation_length (sorted_desc_perm kept)). by rewrite Hs. }
  destruct kept as [|a [|b [|c kept]]]; try discriminate Hlen.
  simpl in Hs.
  destruct (float_lt (confidence a) (confidence b)) eqn:E;
    injection Hs as <- <-.
  - apply float_lt_true in E. split; [by apply Qlt_le_weak | by left].
  - apply float_lt_false in E. split; [done | by right].
Qed.

Lemma two_detections_equal_centers_witness :
  postprocess 200 200 ["eye"]
    [mkRawBox (1 # 4) (1 # 8) (1 # 2) (5 # 8); mkRawBox (1 # 2) (1 # 4) (3 # 4) (1 # 2)]
    [0%Q; 0%Q] [(3 # 4)%Q; (3 # 4)%Q] (1 # 2)
  = Ok [mkDetection "right_eye" (3 # 4) (mkPixelBox 25 50 125 100);
        mkDetection "left_eye" (3 # 4) (mkPixelBox 50 100 100 150)].
Proof.
  apply (two_detections_equal_centers 200 200 ["eye"]
    [mkRawBox (1 # 4) (1 # 8) (1 # 2) (5 # 8); mkRawBox (1 # 2) (1 # 4) (3 # 4) (1 # 2)]
    [0%Q; 0%Q] [(3 # 4)%Q; (3 # 4)%Q] (1 # 2) _
    (mkDetection "eye" (3 # 4) (mkPixelBox 25 50 125 100))
    (mkDetection "eye" (3 # 4) (mkPixelBox 50 100 100 150)) eq_refl eq_refl).
  reflexivity.
Defined.

(** ** Label lookup *)

Lemma py_getitem_ok {A : Type} (l : list A) (k : Z) (x : A) :
  py_getitem l k = Ok x →
  - Z.of_nat (length l) ≤ k < Z.of_nat (length l) ∧
  l !! Z.to_nat (k mod Z.of_nat (length l)) = Some x.
Proof.
  unfold py_getitem. set (n := Z.of_nat (length l)).
  destruct (k <? 0) eqn:Hk; [apply Z.ltb_lt in Hk | apply Z.ltb_ge in Hk].
  - destruct (k + n <? 0) eqn:H1; [discriminate|]. apply Z.ltb_ge in H1.
    destruct (n <=? k + n) eqn:H2; [discriminate|]. apply Z.leb_gt in H2. simpl.
    destruct (l !! Z.to_nat (k + n)) eqn:Hl; [|discriminate].
    intros [= <-]. split; [lia|].
    replace (k mod n) with (k + n); [done|].
    apply (Z.mod_unique k n (-1) (k + n)); lia.
  - destruct (k <? 0) eqn:H1; [apply Z.ltb_lt in H1; lia|].
    destruct (n <=? k) eqn:H2; [discriminate|]. apply Z.leb_gt in H2. simpl.
    destruct (l !! Z.to_nat k) eqn:Hl; [|discriminate].
    intros [= <-]. split; [lia|]. by rewrite Z.mod_small by lia.
Qed.


Lemma py_getitem_exn {A : Type} (l : list A) (k : Z) (e : exn) :
  py_getitem l k = Raise e → e = IndexError.
Proof.
  unfold py_getitem. destruct (_ || _); [congruence|].
  destruct (l !! _); congruence.
Qed.

Lemma detection_at_exn imH imW labels boxes classes s i e :
  detection_at imH imW labels boxes classes s i = Raise e → e = IndexError.
Proof.
  unfold detection_at, np_getitem.
  destruct (boxes !! i); simpl; [|congruence].
  destruct (classes !! i) as [c|]; simpl; [|congruence].
  destruct (py_getitem labels (py_int c)) eqn:E; simpl; [discriminate|].
  intros [= <-]. by apply py_getitem_exn in E.
Qed.






(** ** Text labels *)

Lemma draw_detections_text (dets : list Detection) (d : Detection) :
  d ∈ dets →
  PutText (detection_label d) (xmin (box d)) (ymin (box d) - 10) ∈ draw_detections dets.
Proof.
  intros Hd. unfold draw_detections.
  apply list_elem_of_In, in_concat. exists (draw_detection d). split.
  - apply in_map. by apply list_elem_of_In.
  - unfold draw_detection. right. by left.
Qed.

(** C9, as the code has it.  For every detection drawn, the text put on
    the image is [<label>: <p>%] where [p] is [confidence * 100] with its
    fraction cut off: the integer with [p ≤ confidence * 100 < p + 1] for
    a confidence that is not negative (and [p - 1 < confidence * 100 ≤ p]
    for one that is not positive).  Confidence 0.999 is drawn as 99%. *)
Theorem drawn_label_truncated (dets : list Detection) (d : Detection) :
  d ∈ dets →
  ∃ p : Z,
    PutText (object d +:+ ": " +:+ py_str p +:+ "%") (xmin (box d)) (ymin (box d) - 10)
      ∈ draw_detections dets ∧
    ((0 <= confidence d)%Q →
       (inject_Z p <= confidence d * 100)%Q ∧ (confidence d * 100 < inject_Z p + 1)%Q) ∧
    ((confidence d <= 0)%Q →
       (inject_Z p - 1 < confidence d * 100)%Q ∧ (confidence d * 100 <= inject_Z p)%Q).
Proof.
  intros Hd. exists (py_int (confidence d * 100)).
  split; [exact (draw_detections_text dets d Hd)|].
  split; intros Hc.
  - apply py_int_nonneg. apply Qmult_le_0_compat; [done | discriminate].
  - apply py_int_nonpos.
    exact (Qmult_le_compat_r (confidence d) 0 100 Hc ltac:(discriminate)).
Qed.

(** C9 as stated fails at its own example: for the single-precision
    number nearest to 0.999 the nearest integer to [confidence * 100] is
    100, and the text drawn says 99%. *)
Lemma drawn_label_truncated_counterexample :
  let d := mkDetection "left_eye" (16760439 # 16777216) (mkPixelBox 80 80 160 160) in
  draw_detections [d] = [Rectangle 80 80 160 160; PutText "left_eye: 99%" 80 70] ∧
  (100 - (1 # 2) < confidence d * 100)%Q ∧ (confidence d * 100 < 100 + (1 # 2))%Q ∧
  detection_label d ≠ "left_eye: 100%".
Proof.
  split; [reflexivity|]. split; [reflexivity|]. split; [reflexivity|]. discriminate.
Qed.

Lemma drawn_label_truncated_witness :
  ∃ p : Z,
    PutText ("left_eye" +:+ ": " +:+ py_str p +:+ "%") 80 70
      ∈ draw_detections [mkDetection "left_eye" (1023 # 1024) (mkPixelBox 80 80 160 160)] ∧
    (inject_Z p <= (1023 # 1024) * 100)%Q ∧ ((1023 # 1024) * 100 < inject_Z p + 1)%Q.
Proof.
  destruct (drawn_label_truncated
              [mkDetection "left_eye" (1023 # 1024) (mkPixelBox 80 80 160 160)]
              (mkDetection "left_eye" (1023 # 1024) (mkPixelBox 80 80 160 160)))
    as (p & Hdraw & Hpos & _).
  - apply list_elem_of_singleton. reflexivity.
  - exists p. split; [exact Hdraw|]. apply Hpos. discriminate.
Defined.

(** ** The pipeline and the two views *)

Section PipelineFacts.

Variable image_open : list Z → option Image.
Variable rgb_pixels : Image → option (list Z).
Variable resample : Image → Z → Z → list Z.
Variable run_model : ndarray → Outputs.
Variable imwrite_jpg : ndarray → list draw_cmd → list Z.
Variable mktemp : tempdir → string.
Variable b64decode : string → result (list Z).
Variable input_shape : list Z.
Variable labels : list string.

Local Abbreviation preprocess := (preprocess_image image_open rgb_pixels resample).
Local Abbreviation detect_image :=
  (tflite_detect_image image_open rgb_pixels resample run_model imwrite_jpg mktemp
     input_shape labels).
Local Abbreviation detect_view :=
  (detect image_open rgb_pixels resample run_model imwrite_jpg mktemp b64decode
     input_shape labels).

Lemma preprocess_image_resized (image : list Z) (im : Image) (px : list Z) (n h w c : Z) :
  image_open image = Some im →
  rgb_pixels im = Some px →
  0 < h → 0 < w →
  preprocess image [n; h; w; c]
  = Ok (np_array
          {| im_width := h; im_height := w; im_bands := 3;
             im_pixels :=
               resample {| im_width := im_width im; im_height := im_height im;
                           im_bands := 3; im_pixels := px |} h w |}).
Proof.
  intros Hopen Hpx Hh Hw. unfold preprocess_image, pil_convert_rgb.
  rewrite Hopen, Hpx. simpl. unfold pil_resize.
  assert ((h <=? 0) = false) as -> by (apply Z.leb_gt; lia).
  assert ((w <=? 0) = false) as -> by (apply Z.leb_gt; lia).
  done.
Qed.

(** C3 on the code.  For a valid image (one that [Image.open]
    identifies and [convert('RGB')] loads) and an input shape
    [[n; h; w; c]] (height [h], width [w]), [preprocess_image] returns an
    array of shape [[w; h; 3]]: [resize] is given (height, width) where it
    takes (width, height), so the two are exchanged and the result has the
    declared shape [[h; w; 3]] only for a square input. *)
Theorem preprocess_image_shape (image : list Z) (im : Image) (px : list Z) (n h w c : Z) :
  image_open image = Some im →
  rgb_pixels im = Some px →
  0 < h → 0 < w →
  ∃ arr, preprocess image [n; h; w; c] = Ok arr ∧
         shape arr = [w; h; 3] ∧
         (shape arr = [h; w; 3] ↔ h = w).
Proof.
  intros Hopen Hpx Hh Hw. eexists.
  split; [by eapply preprocess_image_resized|]. simpl. split; [done|].
  split; [by intros [= ->] | by intros ->].
Qed.

(** A call of [tflite_detect_image] that returns has passed
    [set_tensor]: the model input is square, and the detections are those
    of the post-processing on a square image. *)
Lemma tflite_detect_image_ok image min_conf fs dets name fs1 :
  detect_image image min_conf fs = Ok (dets, name, fs1) →
  ∃ n image_np,
    input_shape = [1; n; n; 3] ∧
    preprocess image input_shape = Ok image_np ∧
    postprocess n n labels (out_boxes (run_model image_np))
      (out_classes (run_model image_np)) (out_scores (run_model image_np)) min_conf
    = Ok dets ∧
    name = mktemp fs ∧
    fs1 = <[name := imwrite_jpg image_np (draw_detections dets)]> fs.
Proof.
  unfold tflite_detect_image. intros H.
  apply bind_ok in H as (image_np & Hpre & H).
  apply bind_ok in H as ([] & Hset & H).
  unfold set_tensor_check in Hset. case_decide as Hshape; [|discriminate].
  pose proof Hpre as Hpre'.
  unfold preprocess_image in Hpre'.
  destruct (image_open image) as [im|]; [|discriminate].
  apply bind_ok in Hpre' as (im' & Hconv & Hpre').
  unfold pil_convert_rgb in Hconv.
  destruct (rgb_pixels im) as [px|]; [|discriminate]. injection Hconv as <-.
  apply bind_ok in Hpre' as (s1 & Hs1 & Hpre').
  apply bind_ok in Hpre' as (s2 & Hs2 & Hpre').
  apply bind_ok in Hpre' as (r & Hr & Hpre').
  injection Hpre' as <-.
  unfold pil_resize in Hr. destruct (_ || _); [discriminate|].
  injection Hr as <-. simpl in *.
  apply bind_ok in H as (detections & Hpost & H). injection H as <- <- <-.
  rewrite <- Hshape in Hs1, Hs2. vm_compute in Hs1, Hs2.
  injection Hs1 as <-. clear Hs2.
  eexists s2, _.
  rewrite <- Hshape in Hpre |- *. repeat split; try done.
Qed.

Lemma get_images_absent (others : list string) :
  ∀ (fs : tempdir) name, fs !! name = None → get_images others fs !! name = None.
Proof.
  induction others as [|f others IH]; intros fs name Hn; [done|].
  simpl. apply IH. unfold get_image.
  destruct (fs !! f); simpl; [|done].
  destruct (decide (f = name)) as [->|Hne].
  - apply lookup_delete_eq.
  - by rewrite lookup_delete_ne.
Qed.

(** C4.  For the file name returned by [tflite_detect_image], the
    first [GET /image/<filename>] answers 200 with the bytes written and
    removes the file; after that, whatever other images are fetched in
    between, a request for the same name answers 404 with the error
    [File not found] and changes nothing. *)
Theorem image_served_once image min_conf fs dets name fs1 :
  detect_image image min_conf fs = Ok (dets, name, fs1) →
  ∃ content,
    fs1 !! name = Some content ∧
    get_image name fs1
    = (Ok {| status := 200; payload := JpegFile content |}, delete name fs1) ∧
    ∀ others,
      get_image name (get_images others (delete name fs1))
      = (Ok {| status := 404; payload := JsonError "File not found" |},
         get_images others (delete name fs1)).
Proof.
  intros (n & image_np & _ & _ & _ & _ & ->)%tflite_detect_image_ok.
  eexists. split; [apply lookup_insert_eq|]. split.
  - unfold get_image. by rewrite lookup_insert_eq.
  - intros others. unfold get_image.
    by rewrite (get_images_absent others _ name (lookup_delete_eq _ _)).
Qed.

(** What [detect] does with a JSON object whose [image] entry is a
    string. *)
Lemma detect_image_field host (m : gmap string field) fs img :
  m !! "image" = Some (FStr img) →
  detect_view host (Parsed (JObject m)) fs
  = match b64decode img with
    | Raise e => (Raise e, fs)
    | Ok [] => (Ok {| status := 400; payload := JsonError "No selected image" |}, fs)
    | Ok image_data =>
        match detect_image image_data (1 # 2) fs with
        | Raise e => (Raise e, fs)
        | Ok (detections, temp_image, fs') =>
            (Ok {| status := 200;
                   payload := JsonDetections detections
                                ("http://" +:+ host +:+ "/image/" +:+ temp_image) |},
             fs')
        end
    end.
Proof.
  intros Hm. unfold detect, py_contains, py_subscript. rewrite Hm.
  rewrite bool_decide_eq_true_2 by eauto. done.
Qed.

(** An image that is not valid makes [preprocess_image] raise before it
    looks at the input shape: [UnidentifiedImageError] from [Image.open],
    or [OSError] from [convert] when only the header was in order. *)
Lemma preprocess_image_invalid (image : list Z) (shp : list Z) (e : exn) :
  (image_open image = None ∧ e = UnidentifiedImageError) ∨
  (∃ im, image_open image = Some im ∧ rgb_pixels im = None ∧ e = OSError) →
  preprocess image shp = Raise e.
Proof.
  unfold preprocess_image, pil_convert_rgb.
  intros [[-> ->]|(im & -> & -> & ->)]; done.
Qed.

(** C6, as the code has it.  When the [image] field decodes to bytes
    that are not empty and are not a valid image ([Image.open] does not
    identify them, or it does and [convert] cannot load the pixel data),
    the exception ([UnidentifiedImageError], or [OSError]) is not caught:
    it leaves the view, no file is written, and the answer to the request
    has status 500 and no JSON error body. *)
Theorem detect_undecodable host (data : gmap string field) fs img image_data e :
  data !! "image" = Some (FStr img) →
  b64decode img = Ok image_data →
  image_data ≠ [] →
  (image_open image_data = None ∧ e = UnidentifiedImageError) ∨
  (∃ im, image_open image_data = Some im ∧ rgb_pixels im = None ∧ e = OSError) →
  detect_view host (Parsed (JObject data)) fs = (Raise e, fs) ∧
  flask_response (fst (detect_view host (Parsed (JObject data)) fs))
  = {| status := 500; payload := ServerErrorPage |}.
Proof.
  intros Himg Hdec Hne Hbad.
  assert (detect_view host (Parsed (JObject data)) fs = (Raise e, fs)) as Hd.
  { rewrite (detect_image_field host data fs img Himg), Hdec.
    destruct image_data as [|b bs]; [done|].
    unfold tflite_detect_image.
    by rewrite (preprocess_image_invalid (b :: bs) input_shape e Hbad). }
  rewrite Hd. by destruct Hbad as [[_ ->]|(im & _ & _ & ->)].
Qed.

(** For a valid image and a model input that is not square, the array
    that [preprocess_image] makes is refused by [set_tensor]. *)
Lemma tflite_detect_image_mismatch image im px min_conf fs (h w : Z) :
  image_open image = Some im →
  rgb_pixels im = Some px →
  input_shape = [1; h; w; 3] →
  0 < h → 0 < w → h ≠ w →
  tflite_detect_image image_open rgb_pixels resample run_model imwrite_jpg mktemp
    input_shape labels image min_conf fs
  = Raise ValueError.
Proof.
  intros Hopen Hpx Hshape Hh Hw Hne.
  unfold tflite_detect_image.
  rewrite Hshape, (preprocess_image_resized image im px 1 h w 3 Hopen Hpx Hh Hw). simpl.
  unfold set_tensor_check. simpl.
  case_decide as Heq; [|done]. injection Heq as Heq _. by destruct Hne.
Qed.

End PipelineFacts.

Lemma preprocess_image_shape_witness :
  ∃ arr, preprocess_image sample_open sample_rgb sample_resample [255; 216] [1; 300; 400; 3]
         = Ok arr ∧
         shape arr = [400; 300; 3] ∧
         (shape arr = [300; 400; 3] ↔ 300 = 400).
Proof.
  apply (preprocess_image_shape sample_open sample_rgb sample_resample
           [255; 216] (mkImage 640 480 3 [0]) [0] 1 300 400 3).
  - reflexivity.
  - reflexivity.
  - lia.
  - lia.
Defined.

Lemma image_served_once_witness :
  ∃ content,
    get_image "tmpk3v9x1.jpg" (<["tmpk3v9x1.jpg" := [255; 216; 255; 217]]> ∅)
    = (Ok {| status := 200; payload := JpegFile content |},
       delete "tmpk3v9x1.jpg" (<["tmpk3v9x1.jpg" := [255; 216; 255; 217]]> ∅)) ∧
    fst (get_image "tmpk3v9x1.jpg"
           (get_images ["tmpq0.jpg"]
              (delete "tmpk3v9x1.jpg" (<["tmpk3v9x1.jpg" := [255; 216; 255; 217]]> ∅))))
    = Ok {| status := 404; payload := JsonError "File not found" |}.
Proof.
  destruct (image_served_once sample_open sample_rgb sample_resample sample_model
              sample_imwrite sample_mktemp [1; 320; 320; 3] ["eye"]
              [255; 216] (1 # 2) ∅
              [mkDetection "right_eye" (7 # 8) (mkPixelBox 200 80 280 160);
               mkDetection "left_eye" (3 # 4) (mkPixelBox 40 80 120 160)]
              "tmpk3v9x1.jpg"
              (<["tmpk3v9x1.jpg" := [255; 216; 255; 217]]> ∅)
              eq_refl)
    as (content & _ & Hfirst & Hlater).
  exists content. split; [exact Hfirst|]. by rewrite (Hlater ["tmpq0.jpg"]).
Defined.

(** C6 as stated fails: a request whose [image] field is [AQ==], the
    single byte [01], which is no picture, is answered with status 500,
    not 400, and the body is no JSON error. *)
Lemma detect_undecodable_counterexample :
  sample_b64decode "AQ==" = Ok [1] ∧ sample_open [1] = None ∧
  flask_response
    (fst (detect sample_open sample_rgb sample_resample sample_model sample_imwrite
            sample_mktemp sample_b64decode [1; 320; 320; 3] ["eye"]
            "localhost:5000" (Parsed (JObject {["image" := FStr "AQ=="]})) ∅))
  = {| status := 500; payload := ServerErrorPage |}.
Proof.
  split; [reflexivity|]. split; [reflexivity|].
  rewrite (detect_image_field _ _ _ _ _ _ _ _ _ _ _ _ "AQ==")
    by apply lookup_singleton_eq.
  reflexivity.
Qed.

Lemma detect_undecodable_witness :
  flask_response
    (fst (detect sample_open sample_rgb sample_resample sample_model sample_imwrite
            sample_mktemp sample_b64decode [1; 320; 320; 3] ["eye"]
            "localhost:5000" (Parsed (JObject {["image" := FStr "AQ=="]})) ∅))
  = {| status := 500; payload := ServerErrorPage |} ∧
  detect sample_open sample_rgb sample_resample sample_model sample_imwrite
    sample_mktemp sample_b64decode [1; 320; 320; 3] ["eye"]
    "localhost:5000" (Parsed (JObject {["image" := FStr "UDY="]})) ∅
  = (Raise OSError, ∅).
Proof.
  split.
  - apply (detect_undecodable sample_open sample_rgb sample_resample sample_model
             sample_imwrite sample_mktemp sample_b64decode [1; 320; 320; 3] ["eye"]
             "localhost:5000" {["image" := FStr "AQ=="]} ∅ "AQ==" [1]
             UnidentifiedImageError).
    + apply lookup_singleton_eq.
    + reflexivity.
    + discriminate.
    + left. split; reflexivity.
  - apply (detect_undecodable sample_open sample_rgb sample_resample sample_model
             sample_imwrite sample_mktemp sample_b64decode [1; 320; 320; 3] ["eye"]
             "localhost:5000" {["image" := FStr "UDY="]} ∅ "UDY=" [80; 54] OSError).
    + apply lookup_singleton_eq.
    + reflexivity.
    + discriminate.
    + right. exists (mkImage 2 2 3 []). repeat split; reflexivity.
Defined.

(** ** Worked requests on the sample installation *)

(** A picture with two eyes: status 200, two detections labelled by
    position, and the link to the annotated file; the file is then
    served once. *)
Example detect_two_eyes :
  detect sample_open sample_rgb sample_resample sample_model sample_imwrite
    sample_mktemp sample_b64decode [1; 320; 320; 3] ["eye"]
    "localhost:5000" (Parsed (JObject {["image" := FStr "/9g="]})) ∅
  = (Ok {| status := 200;
           payload := JsonDetections
             [mkDetection "right_eye" (7 # 8) (mkPixelBox 200 80 280 160);
              mkDetection "left_eye" (3 # 4) (mkPixelBox 40 80 120 160)]
             "http://localhost:5000/image/tmpk3v9x1.jpg" |},
     <["tmpk3v9x1.jpg" := [255; 216; 255; 217]]> ∅).
Proof.
  rewrite (detect_image_field _ _ _ _ _ _ _ _ _ _ _ _ "/9g=")
    by apply lookup_singleton_eq.
  reflexivity.
Qed.

Example get_twice :
  let fs := <["tmpk3v9x1.jpg" := [255; 216; 255; 217]]> (∅ : tempdir) in
  fst (get_image "tmpk3v9x1.jpg" fs)
  = Ok {| status := 200; payload := JpegFile [255; 216; 255; 217] |} ∧
  fst (get_image "tmpk3v9x1.jpg" (snd (get_image "tmpk3v9x1.jpg" fs)))
  = Ok {| status := 404; payload := JsonError "File not found" |}.
Proof.
  simpl. unfold get_image. rewrite lookup_insert_eq. simpl.
  by rewrite lookup_delete_eq.
Qed.

(** The two refusals of [detect] itself. *)
Example detect_no_image_part :
  fst (detect sample_open sample_rgb sample_resample sample_model sample_imwrite
         sample_mktemp sample_b64decode [1; 320; 320; 3] ["eye"]
         "localhost:5000" (Parsed (JObject ∅)) ∅)
  = Ok {| status := 400; payload := JsonError "No image part" |}.
Proof.
  unfold detect, py_contains. rewrite lookup_empty.
  by rewrite bool_decide_eq_false_2 by (intros [? ?]; discriminate).
Qed.

Example detect_no_selected_image :
  fst (detect sample_open sample_rgb sample_resample sample_model sample_imwrite
         sample_mktemp (λ _, Ok []) [1; 320; 320; 3] ["eye"]
         "localhost:5000" (Parsed (JObject {["image" := FStr ""]})) ∅)
  = Ok {| status := 400; payload := JsonError "No selected image" |}.
Proof.
  by rewrite (detect_image_field _ _ _ _ _ _ _ _ _ _ _ _ "")
    by apply lookup_singleton_eq.
Qed.

(** Bodies that are no object: a JSON string is searched for the
    substring, a list for the element, [null] cannot be searched, and an
    HTTP error of [get_json] keeps its code. *)
Example detect_other_bodies :
  let view := detect sample_open sample_rgb sample_resample sample_model sample_imwrite
                sample_mktemp sample_b64decode [1; 320; 320; 3] ["eye"] "localhost:5000" in
  fst (view (Parsed (JString "my picture")) ∅)
  = Ok {| status := 400; payload := JsonError "No image part" |} ∧
  fst (view (Parsed (JString "my image")) ∅) = Raise TypeError ∧
  fst (view (Parsed (JArray [FStr "image"])) ∅) = Raise TypeError ∧
  fst (view (Parsed JScalar) ∅) = Raise TypeError ∧
  fst (view (Parsed (JObject {["image" := FOther]})) ∅) = Raise TypeError ∧
  status (flask_response (fst (view (Aborted 415) ∅))) = 415.
Proof.
  simpl. repeat split; reflexivity.
Qed.

(** A single detection centred at 160 in a 200-wide image. *)
Example one_detection_right :
  postprocess 200 200 ["eye"] [mkRawBox (1 # 4) (7 # 10) (1 # 2) (9 # 10)]
    [0%Q] [(7 # 8)%Q] (1 # 2)
  = Ok [mkDetection "right_eye" (7 # 8) (mkPixelBox 140 50 180 100)].
Proof. reflexivity. Qed.

(** With three detections the class-table labels stay. *)
Example three_detections_unchanged :
  postprocess 200 200 ["iris"; "pupil"]
    [mkRawBox (1 # 4) (1 # 10) (1 # 2) (3 # 10);
     mkRawBox (1 # 4) (7 # 10) (1 # 2) (9 # 10);
     mkRawBox (1 # 4) (2 # 5) (1 # 2) (3 # 5)]
    [0%Q; 1%Q; 0%Q] [(3 # 4)%Q; (7 # 8)%Q; (5 # 8)%Q] (1 # 2)
  = Ok [mkDetection "pupil" (7 # 8) (mkPixelBox 140 50 180 100);
        mkDetection "iris" (3 # 4) (mkPixelBox 20 50 60 100);
        mkDetection "iris" (5 # 8) (mkPixelBox 80 50 120 100)].
Proof. reflexivity. Qed.

(** * Further properties of the post-processing *)

(** ** What the loop keeps *)

Lemma collect_from_confidences imH imW labels boxes classes min_conf rest :
  ∀ i ds, collect_from imH imW labels boxes classes min_conf i rest = Ok ds →
  map confidence ds = List.filter (float_lt min_conf) rest.
Proof.
  induction rest as [|s rest IH]; intros i ds H; simpl in H.
  - by injection H as <-.
  - simpl. destruct (float_lt min_conf s) eqn:Hs.
    + bind_inv H. injection H as <-.
      apply detection_at_ok in Ha as (_ & _ & _ & _ & _ & Hc & _).
      simpl. by rewrite Hc, (IH _ _ Ha0).
    + eauto.
Qed.

Lemma relabel_eyes_confidences imW l :
  map confidence (relabel_eyes imW l) = map confidence l.
Proof.
  pose proof (relabel_eyes_same imW l) as HF.
  induction HF as [|x y l k [Hc _] _ IH]; simpl; [done|]. by rewrite Hc, IH.
Qed.

(** X1.  For a threshold that single precision holds exactly (such as
    the 0.5 of [detect]; the comparison [scores[i] > min_conf] is then the
    comparison of the two numbers whichever precision it is made in), the
    confidences returned are the scores above [min_conf], all of them and
    each as often as it occurs: one detection per such index. *)
Theorem returned_confidences imH imW labels boxes classes scores min_conf dets :
  is_float32 min_conf →
  postprocess imH imW labels boxes classes scores min_conf = Ok dets →
  map confidence dets ≡ₚ List.filter (float_lt min_conf) scores ∧
  length dets = length (List.filter (float_lt min_conf) scores).
Proof.
  intros _ (kept & Hk & ->)%postprocess_ok.
  apply collect_from_confidences in Hk.
  assert (map confidence (relabel_eyes imW (sorted_desc kept))
          ≡ₚ List.filter (float_lt min_conf) scores) as Hp.
  { rewrite relabel_eyes_confidences, <- Hk.
    apply Permutation_map, sorted_desc_perm. }
  split; [done|].
  rewrite <- (Permutation_length Hp). by rewrite length_map.
Qed.

Lemma is_float32_half : is_float32 (1 # 2).
Proof. exists 1, (-1). split; [lia|]. split; [lia | reflexivity]. Qed.

Lemma returned_confidences_witness :
  map confidence
    [mkDetection "right_eye" (7 # 8) (mkPixelBox 200 80 280 160);
     mkDetection "left_eye" (3 # 4) (mkPixelBox 80 80 160 160)]
  ≡ₚ List.filter (float_lt (1 # 2)) [(3 # 4)%Q; (1 # 4)%Q; (7 # 8)%Q] ∧
  length [mkDetection "right_eye" (7 # 8) (mkPixelBox 200 80 280 160);
          mkDetection "left_eye" (3 # 4) (mkPixelBox 80 80 160 160)]
  = length (List.filter (float_lt (1 # 2)) [(3 # 4)%Q; (1 # 4)%Q; (7 # 8)%Q]).
Proof.
  apply (returned_confidences 320 320 ["eye"]
           [mkRawBox (1 # 4) (1 # 4) (1 # 2) (1 # 2);
            mkRawBox (1 # 4) (1 # 4) (1 # 2) (1 # 2);
            mkRawBox (1 # 4) (5 # 8) (1 # 2) (7 # 8)]
           [0%Q; 0%Q; 0%Q] [(3 # 4)%Q; (1 # 4)%Q; (7 # 8)%Q] (1 # 2)).
  - exact is_float32_half.
  - reflexivity.
Defined.

Lemma collect_from_none imH imW labels boxes classes min_conf rest :
  Forall (λ s, (s <= min_conf)%Q) rest →
  ∀ i, collect_from imH imW labels boxes classes min_conf i rest = Ok [].
Proof.
  induction 1 as [|s rest Hs _ IH]; intros i; simpl; [done|].
  apply float_lt_false in Hs. by rewrite Hs.
Qed.

(** When no score is above [min_conf] (a score equal to it is not), the
    result is the empty list, whatever the boxes, classes and label table
    are: they are not even looked at, so they may be empty or too short. *)
Theorem nothing_above_threshold imH imW labels boxes classes scores min_conf :
  Forall (λ s, (s <= min_conf)%Q) scores →
  postprocess imH imW labels boxes classes scores min_conf = Ok [].
Proof.
  intros H. unfold postprocess, collect_detections.
  by rewrite (collect_from_none _ _ _ _ _ _ _ H).
Qed.

Lemma nothing_above_threshold_witness :
  postprocess 320 320 [] [] [] [(1 # 2)%Q; (1 # 4)%Q] (1 # 2) = Ok [].
Proof.
  apply nothing_above_threshold.
  repeat constructor; discriminate.
Defined.

(** ** When the loop fails *)

Lemma py_getitem_in_range {A : Type} (l : list A) (k : Z) :
  - Z.of_nat (length l) ≤ k < Z.of_nat (length l) →
  ∃ x, py_getitem l k = Ok x ∧ x ∈ l.
Proof.
  unfold py_getitem. set (n := Z.of_nat (length l)). intros Hk.
  destruct (k <? 0) eqn:H0; [apply Z.ltb_lt in H0 | apply Z.ltb_ge in H0].
  - assert ((k + n <? 0) = false) as -> by (apply Z.ltb_ge; lia).
    assert ((n <=? k + n) = false) as -> by (apply Z.leb_gt; lia). simpl.
    destruct (lookup_lt_is_Some_2 l (Z.to_nat (k + n))) as [x Hx]; [unfold n in *; lia|].
    rewrite Hx. exists x. split; [done|]. by eapply list_elem_of_lookup_2.
  - assert ((k <? 0) = false) as -> by (apply Z.ltb_ge; lia).
    assert ((n <=? k) = false) as -> by (apply Z.leb_gt; lia). simpl.
    destruct (lookup_lt_is_Some_2 l (Z.to_nat k)) as [x Hx]; [unfold n in *; lia|].
    rewrite Hx. exists x. split; [done|]. by eapply list_elem_of_lookup_2.
Qed.

Lemma py_getitem_nonneg {A : Type} (l : list A) (k : Z) (x : A) :
  0 ≤ k → l !! Z.to_nat k = Some x → py_getitem l k = Ok x.
Proof.
  intros Hk Hx. unfold py_getitem.
  pose proof (lookup_lt_Some _ _ _ Hx) as Hlen.
  assert ((k <? 0) = false) as -> by (apply Z.ltb_ge; lia).
  assert ((k <? 0) = false) as -> by (apply Z.ltb_ge; lia).
  assert ((Z.of_nat (length l) <=? k) = false) as -> by (apply Z.leb_gt; lia).
  simpl. by rewrite Hx.
Qed.

Lemma py_getitem_elem {A : Type} (l : list A) (k : Z) (x : A) :
  py_getitem l k = Ok x → x ∈ l.
Proof. intros [_ H]%py_getitem_ok. by eapply list_elem_of_lookup_2. Qed.

Lemma detection_at_in_range imH imW labels boxes classes s i b c :
  boxes !! i = Some b → classes !! i = Some c →
  - Z.of_nat (length labels) ≤ py_int c < Z.of_nat (length labels) →
  ∃ d, detection_at imH imW labels boxes classes s i = Ok d.
Proof.
  intros Hb Hc Hr. unfold detection_at, np_getitem. rewrite Hb, Hc. simpl.
  destruct (py_getitem_in_range labels (py_int c) Hr) as (x & -> & _). simpl. eauto.
Qed.

Lemma collect_from_exn imH imW labels boxes classes min_conf rest :
  ∀ i e, collect_from imH imW labels boxes classes min_conf i rest = Raise e →
  e = IndexError.
Proof.
  induction rest as [|s rest IH]; intros i e H; simpl in H; [discriminate|].
  destruct (float_lt min_conf s); [|eauto].
  destruct (detection_at imH imW labels boxes classes s i) eqn:E; simpl in H.
  - destruct (collect_from imH imW labels boxes classes min_conf (S i) rest) eqn:E';
      simpl in H; [discriminate|]. injection H as <-. eauto.
  - injection H as <-. by apply detection_at_exn in E.
Qed.

(** X3.  For an image whose sides are below 2^24 pixels and raw boxes
    with all entries in [0, 1] (so that no scaled coordinate leaves the
    range of single precision), the box, class and label look-ups are the
    only steps of the post-processing that can fail, and each fails with
    [IndexError]. *)
Theorem postprocess_raises_index_error imH imW labels boxes classes scores min_conf e :
  1 ≤ imH < 2 ^ 24 → 1 ≤ imW < 2 ^ 24 →
  Forall normalised boxes →
  postprocess imH imW labels boxes classes scores min_conf = Raise e →
  e = IndexError.
Proof.
  unfold postprocess, collect_detections. intros _ _ _ H.
  destruct (collect_from imH imW labels boxes classes min_conf 0 scores) eqn:E;
    simpl in H; [discriminate|].
  injection H as <-. by apply collect_from_exn in E.
Qed.

Lemma postprocess_raises_index_error_witness :
  postprocess 320 320 ["eye"] [mkRawBox (1 # 4) (1 # 4) (1 # 2) (1 # 2)] [] [(7 # 8)%Q] (1 # 2)
  = Raise IndexError.
Proof.
  assert (∃ e, postprocess 320 320 ["eye"] [mkRawBox (1 # 4) (1 # 4) (1 # 2) (1 # 2)] []
                 [(7 # 8)%Q] (1 # 2) = Raise e)
    as [e He] by (eexists; reflexivity).
  rewrite He. f_equal.
  apply (postprocess_raises_index_error 320 320 ["eye"]
           [mkRawBox (1 # 4) (1 # 4) (1 # 2) (1 # 2)] [] [(7 # 8)%Q] (1 # 2) e).
  - lia.
  - lia.
  - repeat constructor; discriminate.
  - exact He.
Defined.

Lemma collect_from_ok_iff imH imW labels boxes classes min_conf rest :
  ∀ i,
  (∃ ds, collect_from imH imW labels boxes classes min_conf i rest = Ok ds) ↔
  (∀ j s, rest !! j = Some s → (min_conf < s)%Q →
     ∃ b c, boxes !! (i + j)%nat = Some b ∧ classes !! (i + j)%nat = Some c ∧
       - Z.of_nat (length labels) ≤ py_int c < Z.of_nat (length labels)).
Proof.
  induction rest as [|s rest IH]; intros i; simpl.
  - split; [by intros _ j s H | eauto].
  - split.
    + intros [ds H] j s' Hj Hs'.
      destruct (float_lt min_conf s) eqn:Hs.
      * bind_inv H. destruct j as [|j]; simpl in Hj.
        -- rewrite Nat.add_0_r.
           apply detection_at_ok in Ha as (b & c & ? & ? & Hl & _).
           apply py_getitem_ok in Hl as [? _]. eauto.
        -- rewrite Nat.add_succ_r. apply (proj1 (IH (S i))) with s'; eauto.
      * destruct j as [|j]; simpl in Hj.
        -- injection Hj as ->. apply float_lt_true in Hs'. congruence.
        -- rewrite Nat.add_succ_r. apply (proj1 (IH (S i))) with s'; eauto.
    + intros Hall.
      destruct (proj2 (IH (S i))) as [ds Hds].
      { intros j s' Hj Hs'. replace (S i + j)%nat with (i + S j)%nat by lia.
        by apply (Hall (S j) s'). }
      rewrite Hds. destruct (float_lt min_conf s) eqn:Hs; [|eauto].
      destruct (Hall 0%nat s eq_refl) as (b & c & Hb & Hc & Hr);
        [by apply float_lt_true|].
      rewrite Nat.add_0_r in Hb, Hc.
      destruct (detection_at_in_range imH imW labels boxes classes s i b c Hb Hc Hr)
        as [d ->]. simpl. eauto.
Qed.

(** X4.  For a threshold that single precision holds exactly, an image
    whose sides are below 2^24 pixels and raw boxes with all entries in
    [0, 1], the post-processing returns a list exactly when every index
    whose score is above [min_conf] has a row in [boxes], an entry in
    [classes], and a class value whose integer part lies from
    [-len(labels)] to [len(labels) - 1].  Indices at or below the
    threshold put no condition on the other tensors. *)
Theorem postprocess_returns_iff imH imW labels boxes classes scores min_conf :
  is_float32 min_conf →
  1 ≤ imH < 2 ^ 24 → 1 ≤ imW < 2 ^ 24 →
  Forall normalised boxes →
  (∃ dets, postprocess imH imW labels boxes classes scores min_conf = Ok dets) ↔
  (∀ i s, scores !! i = Some s → (min_conf < s)%Q →
     ∃ b c, boxes !! i = Some b ∧ classes !! i = Some c ∧
       - Z.of_nat (length labels) ≤ py_int c < Z.of_nat (length labels)).
Proof.
  intros _ _ _ _.
  rewrite <- (collect_from_ok_iff imH imW labels boxes classes min_conf scores 0).
  unfold postprocess, collect_detections. split.
  - intros [dets H]. bind_inv H. eauto.
  - intros [ds ->]. simpl. eauto.
Qed.

Lemma postprocess_returns_iff_witness :
  ∃ dets, postprocess 320 320 ["eye"]
            [mkRawBox (1 # 4) (1 # 4) (1 # 2) (1 # 2); mkRawBox 0 0 1 1]
            [0%Q; 5%Q] [(7 # 8)%Q; (1 # 4)%Q] (1 # 2) = Ok dets.
Proof.
  apply (postprocess_returns_iff 320 320 ["eye"]
           [mkRawBox (1 # 4) (1 # 4) (1 # 2) (1 # 2); mkRawBox 0 0 1 1]
           [0%Q; 5%Q] [(7 # 8)%Q; (1 # 4)%Q] (1 # 2)).
  - exact is_float32_half.
  - lia.
  - lia.
  - repeat constructor; discriminate.
  - intros i s Hs Hlt.
    destruct i as [|[|i]]; simpl in Hs; try discriminate Hs; injection Hs as <-.
    + eexists _, _. split; [reflexivity|]. split; [reflexivity|].
      split; vm_compute; [discriminate | reflexivity].
    + exfalso. revert Hlt. vm_compute. intros H. discriminate H.
Defined.

(** ** Raising the threshold *)

(** A higher threshold keeps fewer detections and never adds or
    reorders any: if the loop succeeds with threshold [t1], it succeeds
    with every [t2 ≥ t1], and what it keeps then is a sublist of what it
    kept with [t1] (so the 0.5 of [detect] keeps a sublist of what the
    default 0.1 keeps). *)
Theorem threshold_monotone imH imW labels boxes classes scores (t1 t2 : Q) kept1 :
  (t1 <= t2)%Q →
  collect_detections imH imW labels boxes classes scores t1 = Ok kept1 →
  ∃ kept2, collect_detections imH imW labels boxes classes scores t2 = Ok kept2 ∧
           kept2 `sublist_of` kept1.
Proof.
  intros Ht. unfold collect_detections. generalize 0%nat. revert kept1.
  induction scores as [|s rest IH]; intros kept1 i H; simpl in *.
  - injection H as <-. eauto using sublist_nil.
  - destruct (float_lt t2 s) eqn:H2.
    + assert (float_lt t1 s = true) as H1.
      { apply float_lt_true. eapply Qle_lt_trans; [done|]. by apply float_lt_true. }
      rewrite H1 in H. bind_inv H. injection H as <-.
      destruct (IH _ _ Ha0) as (k2 & -> & Hsub). rewrite Ha. simpl.
      eauto using sublist_skip.
    + destruct (float_lt t1 s).
      * bind_inv H. injection H as <-.
        destruct (IH _ _ Ha0) as (k2 & -> & Hsub). eauto using sublist_cons.
      * eauto.
Qed.

Lemma threshold_monotone_witness :
  ∃ kept2,
    collect_detections 320 320 ["eye"]
      [mkRawBox (1 # 4) (1 # 4) (1 # 2) (1 # 2); mkRawBox (1 # 4) (5 # 8) (1 # 2) (7 # 8)]
      [0%Q; 0%Q] [(1 # 4)%Q; (7 # 8)%Q] (1 # 2) = Ok kept2 ∧
    kept2 `sublist_of` [mkDetection "eye" (1 # 4) (mkPixelBox 80 80 160 160);
                        mkDetection "eye" (7 # 8) (mkPixelBox 200 80 280 160)].
Proof.
  apply (threshold_monotone 320 320 ["eye"]
      [mkRawBox (1 # 4) (1 # 4) (1 # 2) (1 # 2); mkRawBox (1 # 4) (5 # 8) (1 # 2) (7 # 8)]
      [0%Q; 0%Q] [(1 # 4)%Q; (7 # 8)%Q] (1 # 10) (1 # 2)).
  - discriminate.
  - reflexivity.
Defined.

(** ** Boxes of a well-formed model output *)

Lemma scaled_le (x : Q) (n : Z) : (x <= 1)%Q → 0 ≤ n → (x * inject_Z n <= inject_Z n)%Q.
Proof.
  intros Hx Hn. rewrite <- (Qmult_1_l (inject_Z n)) at 2.
  apply Qmult_le_compat_r; [done|].
  change 0%Q with (inject_Z 0). by rewrite <- Zle_Qle.
Qed.

Lemma scaled_nonneg (x : Q) (n : Z) : (0 <= x)%Q → 0 ≤ n → (0 <= x * inject_Z n)%Q.
Proof.
  intros Hx Hn. apply Qmult_le_0_compat; [done|].
  change 0%Q with (inject_Z 0). by rewrite <- Zle_Qle.
Qed.

(** For an image of at least one pixel each way and raw boxes with all
    entries in [0, 1], every coordinate of every returned box lies on the
    image or on its border: [xmin] in 1..W, [xmax] in 0..W, [ymin] in
    1..H, [ymax] in 0..H. *)
Theorem normalised_boxes_inside imH imW labels boxes classes scores min_conf dets d :
  1 ≤ imH → 1 ≤ imW →
  Forall normalised boxes →
  postprocess imH imW labels boxes classes scores min_conf = Ok dets →
  d ∈ dets →
  1 ≤ xmin (box d) ≤ imW ∧ 0 ≤ xmax (box d) ≤ imW ∧
  1 ≤ ymin (box d) ≤ imH ∧ 0 ≤ ymax (box d) ≤ imH.
Proof.
  intros HH HW Hnorm H Hd.
  destruct (postprocess_elem _ _ _ _ _ _ _ _ _ H Hd)
    as (d0 & i & s & [_ Hb] & _ & _ & Hat).
  apply detection_at_ok in Hat as (b & c & Hbi & _ & _ & _ & Hbox).
  rewrite Hb, Hbox. simpl.
  rewrite Forall_forall in Hnorm.
  destruct (Hnorm b) as ([H0l H0u] & [H1l H1u] & [H2l H2u] & [H3l H3u]);
    [by eapply list_elem_of_lookup_2|].
  assert (∀ n x, 1 ≤ n → (x <= 1)%Q →
            1 ≤ py_int (py_max 1 (x * inject_Z n)) ≤ n) as Hmin.
  { intros n x Hn Hx. split.
    - pose proof (py_int_mono _ _ (py_max_lower 1 (x * inject_Z n))) as Hl.
      exact Hl.
    - assert (py_max 1 (x * inject_Z n) <= inject_Z n)%Q as Hu.
      { apply py_max_le.
        - change 1%Q with (inject_Z 1). by rewrite <- Zle_Qle.
        - apply scaled_le; [done | lia]. }
      apply py_int_mono in Hu. by rewrite py_int_inject in Hu. }
  assert (∀ n x, 1 ≤ n → (0 <= x)%Q →
            0 ≤ py_int (py_min (inject_Z n) (x * inject_Z n)) ≤ n) as Hmax.
  { intros n x Hn Hx. split.
    - assert (inject_Z 0 <= py_min (inject_Z n) (x * inject_Z n))%Q as Hl.
      { apply py_min_lower.
        - rewrite <- Zle_Qle. lia.
        - apply scaled_nonneg; [done | lia]. }
      apply py_int_mono in Hl. by rewrite py_int_inject in Hl.
    - pose proof (py_int_mono _ _ (py_min_upper (inject_Z n) (x * inject_Z n))) as Hu.
      by rewrite py_int_inject in Hu. }
  auto.
Qed.

Lemma normalised_boxes_inside_witness :
  1 ≤ 1 ≤ 320 ∧ 0 ≤ 0 ≤ 320 ∧ 1 ≤ 80 ≤ 320 ∧ 0 ≤ 160 ≤ 320.
Proof.
  apply (normalised_boxes_inside 320 320 ["eye"] [mkRawBox (1 # 4) 0 (1 # 2) (1 # 1024)]
           [0%Q] [(7 # 8)%Q] (1 # 2)
           [mkDetection "left_eye" (7 # 8) (mkPixelBox 1 80 0 160)]
           (mkDetection "left_eye" (7 # 8) (mkPixelBox 1 80 0 160))).
  - lia.
  - lia.
  - repeat constructor; discriminate.
  - reflexivity.
  - apply list_elem_of_singleton. reflexivity.
Defined.

(** ** Labels after the relabelling *)

(** One or two returned detections never carry a class-table label: a
    single one is [left_eye] or [right_eye], and two are one [left_eye]
    and one [right_eye], also when their centres coincide. *)
Theorem few_detections_labels imH imW labels boxes classes scores min_conf dets :
  postprocess imH imW labels boxes classes scores min_conf = Ok dets →
  (length dets = 1%nat →
     ∃ e, dets = [e] ∧ (object e = "left_eye" ∨ object e = "right_eye")) ∧
  (length dets = 2%nat →
     ∃ e0 e1, dets = [e0; e1] ∧
       ((object e0 = "left_eye" ∧ object e1 = "right_eye") ∨
        (object e0 = "right_eye" ∧ object e1 = "left_eye"))).
Proof.
  intros (kept & _ & ->)%postprocess_ok.
  unfold relabel_eyes.
  destruct (sorted_desc kept) as [|d0 [|d1 [|d2 l]]];
    try destruct (float_lt _ _);
    (split; intros Hl; try discriminate Hl); eauto 10.
Qed.

Lemma few_detections_labels_witness :
  ∃ e0 e1,
    [mkDetection "right_eye" (7 # 8) (mkPixelBox 200 80 280 160);
     mkDetection "left_eye" (3 # 4) (mkPixelBox 80 80 160 160)] = [e0; e1] ∧
    ((object e0 = "left_eye" ∧ object e1 = "right_eye") ∨
     (object e0 = "right_eye" ∧ object e1 = "left_eye")).
Proof.
  apply (few_detections_labels 320 320 ["eye"]
           [mkRawBox (1 # 4) (1 # 4) (1 # 2) (1 # 2);
            mkRawBox (1 # 4) (5 # 8) (1 # 2) (7 # 8)]
           [0%Q; 0%Q] [(3 # 4)%Q; (7 # 8)%Q] (1 # 2)).
  - reflexivity.
  - reflexivity.
Defined.

Lemma collect_detections_labels imH imW labels boxes classes scores min_conf kept d :
  collect_detections imH imW labels boxes classes scores min_conf = Ok kept →
  d ∈ kept → object d ∈ labels.
Proof.
  intros Hk Hd.
  destruct (collect_detections_elem _ _ _ _ _ _ _ _ _ Hk Hd) as (i & s & _ & _ & Hat).
  apply detection_at_ok in Hat as (_ & c & _ & _ & Hl & _).
  by apply py_getitem_elem in Hl.
Qed.

(** With no detection, or with three or more, nothing is relabelled:
    the result is the sorted list of what the loop kept, and every label
    is an entry of the label table. *)
Theorem many_detections_keep_labels imH imW labels boxes classes scores min_conf dets :
  postprocess imH imW labels boxes classes scores min_conf = Ok dets →
  length dets ≠ 1%nat → length dets ≠ 2%nat →
  (∃ kept, collect_detections imH imW labels boxes classes scores min_conf = Ok kept ∧
           dets = sorted_desc kept) ∧
  ∀ d, d ∈ dets → object d ∈ labels.
Proof.
  intros (kept & Hk & ->)%postprocess_ok H1 H2.
  assert (relabel_eyes imW (sorted_desc kept) = sorted_desc kept) as Heq.
  { pose proof (Forall2_length _ _ _ (relabel_eyes_same imW (sorted_desc kept))) as Hlen.
    rewrite <- Hlen in H1, H2. unfold relabel_eyes.
    by destruct (sorted_desc kept) as [|d0 [|d1 [|d2 l]]]. }
  rewrite Heq. split; [eauto|].
  intros d Hd. rewrite (sorted_desc_perm kept) in Hd.
  by eapply collect_detections_labels.
Qed.

Lemma many_detections_keep_labels_witness :
  object (mkDetection "pupil" (7 # 8) (mkPixelBox 140 50 180 100)) ∈ ["iris"; "pupil"].
Proof.
  apply (many_detections_keep_labels 200 200 ["iris"; "pupil"]
    [mkRawBox (1 # 4) (1 # 10) (1 # 2) (3 # 10);
     mkRawBox (1 # 4) (7 # 10) (1 # 2) (9 # 10);
     mkRawBox (1 # 4) (2 # 5) (1 # 2) (3 # 5)]
    [0%Q; 1%Q; 0%Q] [(3 # 4)%Q; (7 # 8)%Q; (5 # 8)%Q] (1 # 2)
    [mkDetection "pupil" (7 # 8) (mkPixelBox 140 50 180 100);
     mkDetection "iris" (3 # 4) (mkPixelBox 20 50 60 100);
     mkDetection "iris" (5 # 8) (mkPixelBox 80 50 120 100)]).
  - reflexivity.
  - simpl. lia.
  - simpl. lia.
  - apply elem_of_cons. by left.
Defined.

(** ** Sorting a list that is in order *)

Lemma insert_desc_head d l :
  HdRel geq_conf d l → insert_desc d l = d :: l.
Proof.
  destruct l as [|y l]; [done|]. intros Hhd%HdRel_inv. simpl.
  by apply float_lt_false in Hhd as ->.
Qed.

(** Detections that the loop produced in descending order of confidence
    come out in that order. *)
Theorem sorted_desc_fixed (l : list Detection) :
  Sorted geq_conf l → sorted_desc l = l.
Proof.
  induction 1 as [|d k Hs IH Hhd]; simpl; [done|].
  rewrite IH. by apply insert_desc_head.
Qed.

Lemma sorted_desc_fixed_witness :
  sorted_desc [mkDetection "eye" (7 # 8) (mkPixelBox 200 80 280 160);
               mkDetection "eye" (3 # 4) (mkPixelBox 80 80 160 160)]
  = [mkDetection "eye" (7 # 8) (mkPixelBox 200 80 280 160);
     mkDetection "eye" (3 # 4) (mkPixelBox 80 80 160 160)].
Proof.
  apply sorted_desc_fixed.
  repeat constructor. unfold geq_conf. simpl. discriminate.
Defined.

(** ** The annotation *)

(** For a confidence between 0 and 1 the percentage written is between
    0 and 100, and it is 100 only for confidence 1. *)
Theorem label_percent_range (d : Detection) :
  (0 <= confidence d)%Q → (confidence d <= 1)%Q →
  ∃ p : Z,
    detection_label d = object d +:+ ": " +:+ py_str p +:+ "%" ∧
    0 ≤ p ≤ 100 ∧
    (p = 100 ↔ (confidence d == 1)%Q).
Proof.
  intros H0 H1. exists (py_int (confidence d * 100)). split; [done|].
  assert (0 <= confidence d * 100)%Q as Hlo.
  { apply Qmult_le_0_compat; [done | discriminate]. }
  assert (confidence d * 100 <= inject_Z 100)%Q as Hhi.
  { exact (Qmult_le_compat_r (confidence d) 1 100 H1 ltac:(discriminate)). }
  pose proof (py_int_mono _ _ Hlo) as Hp0.
  pose proof (py_int_mono _ _ Hhi) as Hp1. rewrite py_int_inject in Hp1.
  split; [split; [exact Hp0 | exact Hp1]|].
  split.
  - intros Hp. apply Qle_antisym; [done|].
    destruct (py_int_nonneg _ Hlo) as [Hfl _]. rewrite Hp in Hfl.
    apply (Qmult_le_r 1 (confidence d) 100); [reflexivity | exact Hfl].
  - intros Heq. apply Z.le_antisymm; [exact Hp1|].
    assert (inject_Z 100 <= confidence d * 100)%Q as Hge.
    { rewrite Heq. discriminate. }
    apply py_int_mono in Hge. by rewrite py_int_inject in Hge.
Qed.

Lemma label_percent_range_witness :
  ∃ p : Z,
    detection_label (mkDetection "left_eye" (1023 # 1024) (mkPixelBox 80 80 160 160))
    = "left_eye" +:+ ": " +:+ py_str p +:+ "%" ∧
    0 ≤ p ≤ 100 ∧ (p = 100 ↔ (1023 # 1024 == 1)%Q).
Proof.
  apply (label_percent_range
           (mkDetection "left_eye" (1023 # 1024) (mkPixelBox 80 80 160 160)));
    discriminate.
Defined.

Lemma draw_detections_length (dets : list Detection) :
  length (draw_detections dets) = (2 * length dets)%nat.
Proof.
  unfold draw_detections. induction dets as [|e dets IH]; simpl in *; [done | lia].
Qed.

(** The drawing follows the returned list: the [k]-th detection
    contributes the commands number [2k] (its rectangle, corner to corner)
    and [2k + 1] (its text, ten pixels above the top left corner), and
    nothing else is drawn. *)
Theorem draw_detections_order (dets : list Detection) (k : nat) (d : Detection) :
  dets !! k = Some d →
  draw_detections dets !! (2 * k)%nat
  = Some (Rectangle (xmin (box d)) (ymin (box d)) (xmax (box d)) (ymax (box d))) ∧
  draw_detections dets !! (2 * k + 1)%nat
  = Some (PutText (detection_label d) (xmin (box d)) (ymin (box d) - 10)) ∧
  length (draw_detections dets) = (2 * length dets)%nat.
Proof.
  intros Hk. split; [|split; [|apply draw_detections_length]]; revert k Hk;
    unfold draw_detections;
    (induction dets as [|e dets IH]; intros k Hk; [done|]);
    (destruct k as [|k]; simpl in Hk; [by injection Hk as ->|]).
  - replace (2 * S k)%nat with (S (S (2 * k))) by lia. simpl. by apply IH.
  - replace (2 * S k + 1)%nat with (S (S (2 * k + 1))) by lia. simpl. by apply IH.
Qed.

Lemma draw_detections_order_witness :
  draw_detections [mkDetection "right_eye" (7 # 8) (mkPixelBox 200 80 280 160);
                   mkDetection "left_eye" (3 # 4) (mkPixelBox 40 80 120 160)] !! 2%nat
  = Some (Rectangle 40 80 120 160) ∧
  draw_detections [mkDetection "right_eye" (7 # 8) (mkPixelBox 200 80 280 160);
                   mkDetection "left_eye" (3 # 4) (mkPixelBox 40 80 120 160)] !! 3%nat
  = Some (PutText "left_eye: 75%" 40 70).
Proof.
  destruct (draw_detections_order
              [mkDetection "right_eye" (7 # 8) (mkPixelBox 200 80 280 160);
               mkDetection "left_eye" (3 # 4) (mkPixelBox 40 80 120 160)]
              1%nat (mkDetection "left_eye" (3 # 4) (mkPixelBox 40 80 120 160)) eq_refl)
    as (Hr & Ht & _).
  split; [exact Hr | exact Ht].
Defined.

(** * Further properties of the two views *)

(** ** Runs of [GET /image/<filename>] *)

Lemma get_image_lookup (g f : string) (fs : tempdir) :
  snd (get_image g fs) !! f = if decide (f = g) then None else fs !! f.
Proof.
  unfold get_image. destruct (fs !! g) eqn:Hg; simpl.
  - rewrite lookup_delete. repeat case_decide; congruence.
  - case_decide; congruence.
Qed.

Lemma get_images_lookup_other (names : list string) :
  ∀ (fs : tempdir) f, f ∉ names → get_images names fs !! f = fs !! f.
Proof.
  induction names as [|g names IH]; intros fs f Hf; [done|]. simpl.
  apply not_elem_of_cons in Hf as [Hne Hf].
  rewrite (IH _ _ Hf), get_image_lookup. by rewrite decide_False.
Qed.

Lemma get_images_absent_after (names : list string) :
  ∀ (fs : tempdir) f, f ∈ names → get_images names fs !! f = None.
Proof.
  induction names as [|g names IH]; intros fs f Hf; [by apply elem_of_nil in Hf|].
  simpl. destruct (decide (f ∈ names)) as [Hin|Hnin]; [by apply IH|].
  apply elem_of_cons in Hf as [->|Hf]; [|done].
  rewrite (get_images_lookup_other _ _ _ Hnin), get_image_lookup. by rewrite decide_True.
Qed.

(** After any run of requests, the files left in the scratch directory
    are exactly the ones that were there and were not asked for, with
    their content untouched; a request never creates a file. *)
Theorem get_images_lookup (names : list string) (fs : tempdir) (f : string) :
  get_images names fs !! f = if decide (f ∈ names) then None else fs !! f.
Proof.
  case_decide as Hf.
  - by apply get_images_absent_after.
  - by apply get_images_lookup_other.
Qed.

Lemma get_image_responses_lookup (names : list string) :
  ∀ (fs : tempdir) j f, names !! j = Some f →
    get_image_responses names fs !! j
    = Some (fst (get_image f (get_images (take j names) fs))).
Proof.
  induction names as [|g names IH]; intros fs j f Hj; [done|].
  destruct j as [|j]; simpl in *.
  - by injection Hj as ->.
  - by apply IH.
Qed.

(** In a run of requests, a second or later request for the same name
    is answered 404 [File not found], whether or not the first one found
    the file: no file is sent twice. *)
Theorem repeated_request_not_found (names : list string) (fs : tempdir) i j f :
  (i < j)%nat → names !! i = Some f → names !! j = Some f →
  get_image_responses names fs !! j
  = Some (Ok {| status := 404; payload := JsonError "File not found" |}).
Proof.
  intros Hij Hi Hj. rewrite (get_image_responses_lookup names fs j f Hj).
  f_equal. unfold get_image.
  assert (get_images (take j names) fs !! f = None) as ->; [|done].
  apply get_images_absent_after.
  apply elem_of_take. eauto.
Qed.

Lemma repeated_request_not_found_witness :
  get_image_responses ["a.jpg"; "b.jpg"; "a.jpg"] (<["a.jpg" := [255; 216]]> ∅) !! 2%nat
  = Some (Ok {| status := 404; payload := JsonError "File not found" |}).
Proof.
  apply (repeated_request_not_found ["a.jpg"; "b.jpg"; "a.jpg"] _ 0 2 "a.jpg").
  - lia.
  - reflexivity.
  - reflexivity.
Defined.

(** The first request for a file that is there is answered 200 with the
    file's content, whatever other names were asked for before it. *)
Theorem first_request_served (names : list string) (fs : tempdir) j f content :
  names !! j = Some f → f ∉ take j names → fs !! f = Some content →
  get_image_responses names fs !! j
  = Some (Ok {| status := 200; payload := JpegFile content |}).
Proof.
  intros Hj Hnew Hf. rewrite (get_image_responses_lookup names fs j f Hj).
  f_equal. unfold get_image.
  assert (get_images (take j names) fs !! f = Some content) as ->; [|done].
  rewrite get_images_lookup_other; done.
Qed.

Lemma first_request_served_witness :
  get_image_responses ["b.jpg"; "a.jpg"] (<["a.jpg" := [255; 216]]> ∅) !! 1%nat
  = Some (Ok {| status := 200; payload := JpegFile [255; 216] |}).
Proof.
  apply (first_request_served ["b.jpg"; "a.jpg"] _ 1 "a.jpg").
  - reflexivity.
  - simpl. intros [H|H]%elem_of_cons; [discriminate H | by apply elem_of_nil in H].
  - apply lookup_insert_eq.
Defined.

(** ** [POST /detect] *)

Section DetectFacts.

Variable image_open : list Z → option Image.
Variable rgb_pixels : Image → option (list Z).
Variable resample : Image → Z → Z → list Z.
Variable run_model : ndarray → Outputs.
Variable imwrite_jpg : ndarray → list draw_cmd → list Z.
Variable mktemp : tempdir → string.
Variable b64decode : string → result (list Z).
Variable input_shape : list Z.
Variable labels : list string.

Local Abbreviation preprocess := (preprocess_image image_open rgb_pixels resample).
Local Abbreviation detect_image :=
  (tflite_detect_image image_open rgb_pixels resample run_model imwrite_jpg mktemp
     input_shape labels).
Local Abbreviation detect_view :=
  (detect image_open rgb_pixels resample run_model imwrite_jpg mktemp b64decode
     input_shape labels).

(** The ways through [detect]. *)
Lemma detect_cases host (req : get_json_result) fs :
  (∃ code, req = Aborted code ∧
   detect_view host req fs = (Raise (HTTPException code), fs)) ∨
  (∃ data, req = Parsed data ∧ py_contains "image" data = Ok false ∧
   detect_view host req fs
   = (Ok {| status := 400; payload := JsonError "No image part" |}, fs)) ∨
  (∃ m img, req = Parsed (JObject m) ∧ m !! "image" = Some (FStr img) ∧
   b64decode img = Ok [] ∧
   detect_view host req fs
   = (Ok {| status := 400; payload := JsonError "No selected image" |}, fs)) ∨
  (∃ e,
   (req = Parsed JScalar ∧ e = TypeError ∨
    (∃ data, req = Parsed data ∧ py_contains "image" data = Ok true ∧
             py_subscript data "image" = Raise TypeError ∧ e = TypeError) ∨
    (∃ m, req = Parsed (JObject m) ∧ m !! "image" = Some FOther ∧ e = TypeError) ∨
    (∃ m img, req = Parsed (JObject m) ∧ m !! "image" = Some (FStr img) ∧
       (b64decode img = Raise e ∨
        ∃ image_data, b64decode img = Ok image_data ∧ image_data ≠ [] ∧
                      detect_image image_data (1 # 2) fs = Raise e))) ∧
   detect_view host req fs = (Raise e, fs)) ∨
  (∃ m img image_data dets name fs1,
   req = Parsed (JObject m) ∧ m !! "image" = Some (FStr img) ∧
   b64decode img = Ok image_data ∧ image_data ≠ [] ∧
   detect_image image_data (1 # 2) fs = Ok (dets, name, fs1) ∧
   detect_view host req fs
   = (Ok {| status := 200;
            payload := JsonDetections dets ("http://" +:+ host +:+ "/image/" +:+ name) |},
      fs1)).
Proof.
  destruct req as [data|code]; [|left; eauto].
  right. destruct data as [m|elems|s|].
  - destruct (m !! "image") as [[img|]|] eqn:Hm.
    + rewrite (detect_image_field _ _ _ _ _ _ _ _ _ host m fs img Hm).
      destruct (b64decode img) as [[|b bs]|e] eqn:Hdec.
      * right. left. eauto 10.
      * destruct (detect_image (b :: bs) (1 # 2) fs) as [[[dets name] fs1]|e] eqn:Hrun.
        -- right. right. right. exists m, img, (b :: bs), dets, name, fs1. eauto 10.
        -- right. right. left. exists e. split; [|done].
           right. right. right. exists m, img. split; [done|]. split; [done|].
           right. exists (b :: bs). eauto.
      * right. right. left. exists e. split; [|done].
        right. right. right. exists m, img. eauto.
    + right. right. left. exists TypeError. split.
      * right. right. left. eauto.
      * unfold detect, py_contains, py_subscript. rewrite Hm.
        by rewrite bool_decide_eq_true_2 by eauto.
    + left. exists (JObject m). split; [done|].
      assert (py_contains "image" (JObject m) = Ok false) as Hc.
      { unfold py_contains. rewrite Hm.
        by rewrite bool_decide_eq_false_2 by (intros [? ?]; discriminate). }
      split; [done|]. unfold detect. by rewrite Hc.
  - unfold detect. simpl. case_bool_decide as Hin.
    + right. right. left. exists TypeError. split; [|done].
      right. left. exists (JArray elems). simpl.
      by rewrite bool_decide_eq_true_2.
    + left. exists (JArray elems). simpl. by rewrite bool_decide_eq_false_2.
  - unfold detect. simpl. case_bool_decide as Hin.
    + right. right. left. exists TypeError. split; [|done].
      right. left. exists (JString s). simpl.
      by rewrite bool_decide_eq_true_2.
    + left. exists (JString s). simpl. by rewrite bool_decide_eq_false_2.
  - right. right. left. exists TypeError. split; [by left | done].
Qed.

(** The exceptions of the pipeline are Python errors, none an HTTP
    error. *)
Lemma tflite_detect_image_exn image min_conf fs e :
  detect_image image min_conf fs = Raise e → ∀ code, e ≠ HTTPException code.
Proof.
  unfold tflite_detect_image, preprocess_image, pil_convert_rgb, pil_resize,
    set_tensor_check.
  intros H code ->.
  destruct (image_open image) as [im|]; [|discriminate].
  destruct (rgb_pixels im) as [px|]; [|discriminate]. simpl in H.
  destruct (py_getitem input_shape 1) as [s1|e1] eqn:H1; simpl in H;
    [|injection H as ->; by apply py_getitem_exn in H1].
  destruct (py_getitem input_shape 2) as [s2|e2] eqn:H2; simpl in H;
    [|injection H as ->; by apply py_getitem_exn in H2].
  destruct ((s1 <=? 0) || (s2 <=? 0)); [discriminate|]. simpl in H.
  case_decide; [|discriminate]. simpl in H.
  match type of H with
  | bind ?p _ = _ => destruct p as [dets|e'] eqn:Hpost; simpl in H; [discriminate|]
  end.
  injection H as ->.
  unfold postprocess in Hpost.
  match type of Hpost with
  | bind ?p _ = _ => destruct p as [kept|e'] eqn:Hk; simpl in Hpost; [discriminate|]
  end.
  injection Hpost as ->. by apply collect_from_exn in Hk.
Qed.

(** X15.  [detect] answers 400 exactly when [get_json] stops the
    request with a 400, when the parsed body has no [image] in it (an
    object without that key, a list without that element, a string without
    that substring), or when the [image] string of an object decodes to no
    bytes at all.  Every other request is answered 200, 500, or the code
    of the HTTP error [get_json] raised. *)
Theorem detect_status host (req : get_json_result) fs :
  (∀ img code, b64decode img ≠ Raise (HTTPException code)) →
  let st := status (flask_response (fst (detect_view host req fs))) in
  (st = 400 ↔
     req = Aborted 400 ∨
     (∃ m, req = Parsed (JObject m) ∧ m !! "image" = None) ∨
     (∃ elems, req = Parsed (JArray elems) ∧ FStr "image" ∉ elems) ∨
     (∃ s, req = Parsed (JString s) ∧ String.index 0 "image" s = None) ∨
     (∃ m img, req = Parsed (JObject m) ∧ m !! "image" = Some (FStr img) ∧
               b64decode img = Ok [])) ∧
  (st = 200 ∨ st = 400 ∨ st = 500 ∨ req = Aborted st).
Proof.
  intros Hb64.
  assert (∀ e, (∀ code, e ≠ HTTPException code) →
            flask_response (Raise e) = {| status := 500; payload := ServerErrorPage |})
    as H500.
  { intros e He. destruct e; try done. by destruct (He code). }
  cbv zeta.
  destruct (detect_cases host req fs)
    as [(code & -> & ->)|[(data & -> & Hc & ->)|[(m & img & -> & Hm & Hb & ->)
        |[(e & He & ->)|(m & img & bytes & dets & name & fs1 & -> & Hm & Hb & Hne & _ & ->)]]]];
    cbn [fst].
  - simpl. split; [|auto]. split; [intros ->; auto|].
    intros [[= ->]|[(? & [=] & _)|[(? & [=] & _)|[(? & [=] & _)|(? & ? & [=] & _)]]]]. done.
  - simpl. split; [|auto]. split; [intros _|done]. right.
    destruct data as [m|elems|s|]; simpl in Hc; try discriminate;
      injection Hc as Hc; apply bool_decide_eq_false in Hc.
    + left. exists m. split; [done|].
      destruct (m !! "image") eqn:E; [|done]. destruct Hc. eauto.
    + right. left. eauto.
    + right. right. left. exists s. split; [done|].
      destruct (String.index 0 "image" s) eqn:E; [|done]. destruct Hc. eauto.
  - simpl. split; [|auto]. split; [intros _|done]. right. right. right. right. eauto.
  - assert (∀ code, e ≠ HTTPException code) as Hne.
    { intros code ->.
      destruct He as [[_ [=]]|[(? & _ & _ & _ & [=])|[(? & _ & _ & [=])
                      |(m & img & _ & _ & [Hr|(bytes & _ & _ & Hr)])]]].
      - by apply Hb64 in Hr.
      - by eapply tflite_detect_image_exn in Hr. }
    rewrite (H500 e Hne). simpl. split; [|auto]. split; [discriminate|].
    intros [->|[(m & -> & Hm)|[(l & -> & Hl)|[(s & -> & Hs)|(m & img & -> & Hm & Hb)]]]];
      destruct He as [[[=] _]|[(data & [= <-] & Hc & Hsub & _)|[(m' & [= <-] & Hm' & _)
                      |(m' & img' & [= <-] & Hm' & [Hr|(bytes & Hr & Hne' & _)])]]];
      simpl in *; try congruence; exfalso;
      first [ rewrite Hm in Hsub; discriminate
            | injection Hc as Hc; apply bool_decide_eq_true in Hc;
              first [ done | destruct Hc as [? Hc]; congruence ] ].
  - simpl. split; [|auto]. split; [discriminate|].
    intros [[=]|[(m' & [= <-] & Hm')|[(? & [=] & _)|[(? & [=] & _)
            |(m' & img' & [= <-] & Hm' & Hb')]]]]; congruence.
Qed.

(** A request that is not answered 200 leaves the scratch directory as
    it was: no file is written for a refused or failed request. *)
Theorem detect_failure_writes_nothing host (req : get_json_result) fs :
  status (flask_response (fst (detect_view host req fs))) ≠ 200 →
  snd (detect_view host req fs) = fs.
Proof.
  destruct (detect_cases host req fs)
    as [(? & _ & ->)|[(? & _ & _ & ->)|[(? & ? & _ & _ & _ & ->)
        |[(? & _ & ->)|(? & ? & ? & ? & ? & ? & _ & _ & _ & _ & _ & ->)]]]]; simpl; done.
Qed.

(** A request answered 200 has written one file: its name ends the
    [image_url], all other files are as before, a [GET] of that name
    returns the written bytes, and if the name picked was not in use the
    scratch directory is afterwards as it was before the request. *)
Theorem detect_then_get host (req : get_json_result) fs resp :
  fst (detect_view host req fs) = Ok resp → status resp = 200 →
  ∃ dets name content,
    payload resp = JsonDetections dets ("http://" +:+ host +:+ "/image/" +:+ name) ∧
    name = mktemp fs ∧
    (∀ f, f ≠ name → snd (detect_view host req fs) !! f = fs !! f) ∧
    get_image name (snd (detect_view host req fs))
    = (Ok {| status := 200; payload := JpegFile content |},
       delete name (snd (detect_view host req fs))) ∧
    (fs !! name = None → delete name (snd (detect_view host req fs)) = fs).
Proof.
  destruct (detect_cases host req fs)
    as [(? & _ & ->)|[(? & _ & _ & ->)|[(? & ? & _ & _ & _ & ->)
        |[(? & _ & ->)|(m & img & bytes & dets & name & fs1 & _ & _ & _ & _ & Hrun & ->)]]]];
    simpl; try (intros [= <-]; discriminate); try discriminate.
  intros [= <-] _.
  apply tflite_detect_image_ok in Hrun as (n & image_np & _ & _ & _ & Hname & ->).
  eexists dets, name, _. split; [done|]. split; [done|]. split; [|split].
  - intros f Hf. by rewrite lookup_insert_ne.
  - unfold get_image. by rewrite lookup_insert_eq.
  - intros Hfree. rewrite delete_insert_eq. by apply delete_id.
Qed.

(** X18.  A 200 answer comes from a JSON object whose [image] string
    decodes to the bytes of a valid image; its detections all have a
    confidence above the 0.5 that [detect] passes on, and their
    confidences are exactly the scores above 0.5 that the model gives for
    that image. *)
Theorem detect_confidences host (req : get_json_result) fs dets url :
  fst (detect_view host req fs)
  = Ok {| status := 200; payload := JsonDetections dets url |} →
  (∀ d, d ∈ dets → (1 # 2 < confidence d)%Q) ∧
  ∃ m img image_data image_np,
    req = Parsed (JObject m) ∧ m !! "image" = Some (FStr img) ∧
    b64decode img = Ok image_data ∧
    preprocess image_data input_shape = Ok image_np ∧
    map confidence dets
    ≡ₚ List.filter (float_lt (1 # 2)) (out_scores (run_model image_np)).
Proof.
  destruct (detect_cases host req fs)
    as [(? & _ & ->)|[(? & _ & _ & ->)|[(? & ? & _ & _ & _ & ->)
        |[(? & _ & ->)|(m & img & bytes & dets' & name & fs1 & -> & Hm & Hb & _ & Hrun & ->)]]]];
    simpl; try discriminate.
  intros [= <- _].
  apply tflite_detect_image_ok in Hrun as (n & image_np & _ & Hpre & Hpost & _ & _).
  split.
  - intros d Hd.
    destruct (postprocess_elem _ _ _ _ _ _ _ _ _ Hpost Hd)
      as (d0 & i & s & [Hc _] & _ & Hlt & Hat).
    apply detection_at_ok in Hat as (_ & _ & _ & _ & _ & Hconf & _).
    by rewrite Hc, Hconf.
  - exists m, img, bytes, image_np. repeat (split; [done|]).
    apply postprocess_ok in Hpost as (kept & Hk & ->).
    apply collect_from_confidences in Hk.
    rewrite relabel_eyes_confidences, <- Hk.
    apply Permutation_map, sorted_desc_perm.
Qed.

(** X19.  With a valid image (identified by [Image.open] and loaded by
    [convert]), [preprocess_image] returns an array exactly when the input
    shape has at least three entries and entries 1 and 2 are positive; a
    shorter shape fails with [IndexError] and a non-positive size with
    [ValueError]. *)
Theorem preprocess_image_failures (image : list Z) (im : Image) (px : list Z)
    (shp : list Z) :
  image_open image = Some im →
  rgb_pixels im = Some px →
  ((∃ arr, preprocess image shp = Ok arr) ↔
   ∃ n h w rest, shp = n :: h :: w :: rest ∧ 0 < h ∧ 0 < w) ∧
  ((length shp < 3)%nat → preprocess image shp = Raise IndexError) ∧
  (∀ n h w rest, shp = n :: h :: w :: rest → h ≤ 0 ∨ w ≤ 0 →
     preprocess image shp = Raise ValueError).
Proof.
  intros Hopen Hpx.
  assert (∀ n h w rest, preprocess image (n :: h :: w :: rest)
            = r ←! pil_resize resample
                     {| im_width := im_width im; im_height := im_height im;
                        im_bands := 3; im_pixels := px |} h w;
              Ok (np_array r)) as Hlong.
  { intros n h w rest. unfold preprocess_image, pil_convert_rgb.
    rewrite Hopen, Hpx. simpl.
    rewrite (py_getitem_nonneg (n :: h :: w :: rest) 1 h) by done.
    by rewrite (py_getitem_nonneg (n :: h :: w :: rest) 2 w) by done. }
  assert ((length shp < 3)%nat → preprocess image shp = Raise IndexError) as Hshort.
  { intros Hlen. unfold preprocess_image, pil_convert_rgb. rewrite Hopen, Hpx.
    destruct shp as [|n [|h [|w rest]]]; simpl in Hlen; try lia; done. }
  split; [|split; [exact Hshort|]].
  - split.
    + intros [arr Harr].
      destruct shp as [|n [|h [|w rest]]];
        try (rewrite Hshort in Harr by (simpl; lia); discriminate).
      rewrite Hlong in Harr. unfold pil_resize in Harr.
      destruct (h <=? 0) eqn:Hh; [discriminate|].
      destruct (w <=? 0) eqn:Hw; [discriminate|].
      apply Z.leb_gt in Hh, Hw. eauto 10.
    + intros (n & h & w & rest & -> & Hh & Hw). rewrite Hlong. unfold pil_resize.
      assert ((h <=? 0) = false) as -> by (apply Z.leb_gt; lia).
      assert ((w <=? 0) = false) as -> by (apply Z.leb_gt; lia).
      simpl. eauto.
  - intros n h w rest -> Hneg. rewrite Hlong. unfold pil_resize.
    destruct Hneg as [Hh|Hw].
    + by assert ((h <=? 0) = true) as -> by (apply Z.leb_le; lia).
    + assert ((w <=? 0) = true) as -> by (apply Z.leb_le; lia).
      by rewrite orb_true_r.
Qed.

End DetectFacts.

(** * The label table *)

Lemma string_append_assoc (a b c : string) : (a +:+ b) +:+ c = a +:+ (b +:+ c).
Proof.
  induction a as [|x a IH]; [done|].
  change (String x ((a +:+ b) +:+ c) = String x (a +:+ (b +:+ c))). by rewrite IH.
Qed.

Lemma readlines_line (l rest : string) :
  no_newline l = true →
  readlines (l +:+ String newline rest) = (l +:+ String newline EmptyString) :: readlines rest.
Proof.
  induction l as [|c l IH]; simpl; intros Hl; [done|].
  apply andb_true_iff in Hl as [Hc Hl]. apply negb_true_iff in Hc.
  by rewrite Hc, (IH Hl).
Qed.

Lemma readlines_last (l : string) :
  no_newline l = true → l ≠ EmptyString → readlines l = [l].
Proof.
  induction l as [|c l IH]; simpl; intros Hl Hne; [done|].
  apply andb_true_iff in Hl as [Hc Hl]. apply negb_true_iff in Hc. rewrite Hc.
  destruct l as [|c' l']; [done|]. by rewrite (IH Hl).
Qed.

Lemma rstrip_newline (l : string) :
  rstrip (l +:+ String newline EmptyString) = rstrip l.
Proof. induction l as [|c l IH]; simpl; [done | by rewrite IH]. Qed.

Lemma rstrip_trimmed (l : string) :
  (∀ c, last_char l = Some c → py_isspace c = false) → rstrip l = l.
Proof.
  induction l as [|c l IH]; [done|]. intros Hlast.
  destruct l as [|c' l'].
  - simpl. by rewrite (Hlast c eq_refl).
  - change (rstrip (String c (String c' l')))
      with (match rstrip (String c' l') with
            | EmptyString => if py_isspace c then EmptyString else String c EmptyString
            | r => String c r
            end).
    by rewrite (IH Hlast).
Qed.

Lemma py_strip_line (l : string) :
  trimmed l → py_strip (l +:+ String newline EmptyString) = l.
Proof.
  intros [Hfirst Hlast]. unfold py_strip.
  destruct l as [|c l]; [done|].
  simpl lstrip. rewrite (Hfirst c eq_refl).
  change (String c (l +:+ String newline EmptyString))
    with (String c l +:+ String newline EmptyString).
  rewrite rstrip_newline. by apply rstrip_trimmed.
Qed.

Lemma py_strip_trimmed (l : string) : trimmed l → py_strip l = l.
Proof.
  intros [Hfirst Hlast]. unfold py_strip.
  destruct l as [|c l]; [done|].
  simpl lstrip. rewrite (Hfirst c eq_refl). by apply rstrip_trimmed.
Qed.

(** Writing labels one per line and loading the file gives the labels
    back, index for index: for labels without a newline inside and without
    white space at either end (the empty label, a blank line, included),
    whether or not the last line is ended by a newline. *)
Theorem load_labels_roundtrip (labels : list string) (last : string) :
  Forall (λ l, no_newline l = true ∧ trimmed l) labels →
  no_newline last = true → trimmed last →
  load_labels (write_lines labels +:+ last)
  = labels ++ (if decide (last = EmptyString) then [] else [last]).
Proof.
  intros Hall Hn Ht. unfold load_labels.
  induction Hall as [|l labels [Hl Hlt] _ IH].
  - change (write_lines [] +:+ last) with last. simpl app.
    case_decide as He; [by rewrite He|].
    rewrite (readlines_last last Hn He). simpl. by rewrite py_strip_trimmed.
  - change (write_lines (l :: labels) +:+ last)
      with ((l +:+ String newline (write_lines labels)) +:+ last).
    rewrite string_append_assoc.
    change (String newline (write_lines labels) +:+ last)
      with (String newline (write_lines labels +:+ last)).
    rewrite (readlines_line l _ Hl).
    change (map py_strip ((l +:+ String newline EmptyString)
                          :: readlines (write_lines labels +:+ last)))
      with (py_strip (l +:+ String newline EmptyString)
            :: map py_strip (readlines (write_lines labels +:+ last))).
    by rewrite py_strip_line, IH.
Qed.

Lemma load_labels_roundtrip_witness :
  load_labels (write_lines ["left eye"; ""; "right_eye"] +:+ "other")
  = ["left eye"; ""; "right_eye"] ++ ["other"].
Proof.
  apply (load_labels_roundtrip ["left eye"; ""; "right_eye"] "other").
  - repeat constructor; simpl; intros c [= <-]; reflexivity.
  - reflexivity.
  - split; simpl; intros c [= <-]; reflexivity.
Defined.

Lemma lstrip_first (s : string) c :
  first_char (lstrip s) = Some c → py_isspace c = false.
Proof.
  induction s as [|a s IH]; simpl; [done|].
  destruct (py_isspace a) eqn:Ha; [done|]. simpl. by intros [= <-].
Qed.

Lemma rstrip_last (s : string) c :
  last_char (rstrip s) = Some c → py_isspace c = false.
Proof.
  revert c. induction s as [|a s IH]; intros c; simpl; [done|].
  destruct (rstrip s) as [|b r] eqn:Hr.
  - destruct (py_isspace a) eqn:Ha; simpl; [done|]. by intros [= <-].
  - intros H. by apply IH.
Qed.

Lemma rstrip_first (s : string) c :
  first_char (rstrip s) = Some c → first_char s = Some c.
Proof.
  destruct s as [|a s]; simpl; [done|].
  destruct (rstrip s); [|done]. by destruct (py_isspace a).
Qed.

(** No label of the table begins or ends with white space, whatever the
    file holds, and the table has one label per line. *)
Theorem load_labels_trimmed (text : string) :
  Forall trimmed (load_labels text) ∧
  length (load_labels text) = length (readlines text).
Proof.
  unfold load_labels. split; [|by rewrite length_map].
  apply Forall_forall. intros l Hl.
  apply list_elem_of_fmap in Hl as (line & -> & _). unfold py_strip. split.
  - intros c Hc. apply rstrip_first in Hc. by apply lstrip_first in Hc.
  - apply rstrip_last.
Qed.

(** * The further properties on the sample installation *)

Lemma tflite_detect_image_mismatch_witness :
  tflite_detect_image sample_open sample_rgb sample_resample sample_model sample_imwrite
    sample_mktemp [1; 300; 400; 3] ["eye"] [255; 216] (1 # 2) ∅
  = Raise ValueError.
Proof.
  apply (tflite_detect_image_mismatch sample_open sample_rgb sample_resample sample_model
           sample_imwrite sample_mktemp [1; 300; 400; 3] ["eye"]
           [255; 216] (mkImage 640 480 3 [0]) [0] (1 # 2) ∅ 300 400).
  - reflexivity.
  - reflexivity.
  - reflexivity.
  - lia.
  - lia.
  - lia.
Defined.

Lemma sample_b64decode_no_http (img : string) (code : Z) :
  sample_b64decode img ≠ Raise (HTTPException code).
Proof. unfold sample_b64decode. repeat case_decide; discriminate. Qed.

Lemma detect_status_witness :
  status (flask_response
            (fst (detect sample_open sample_rgb sample_resample sample_model sample_imwrite
                    sample_mktemp sample_b64decode [1; 320; 320; 3] ["eye"]
                    "localhost:5000" (Parsed (JArray [FStr "picture"; FOther])) ∅)))
  = 400.
Proof.
  apply (detect_status sample_open sample_rgb sample_resample sample_model sample_imwrite
           sample_mktemp sample_b64decode [1; 320; 320; 3] ["eye"]
           "localhost:5000" (Parsed (JArray [FStr "picture"; FOther])) ∅
           sample_b64decode_no_http).
  right. right. left. exists [FStr "picture"; FOther]. split; [reflexivity|].
  intros [H|[H|H]%elem_of_cons]%elem_of_cons;
    [discriminate H | discriminate H | by apply elem_of_nil in H].
Defined.

Lemma detect_failure_writes_nothing_witness :
  snd (detect sample_open sample_rgb sample_resample sample_model sample_imwrite
         sample_mktemp sample_b64decode [1; 320; 320; 3] ["eye"]
         "localhost:5000" (Parsed JScalar) (<["old.jpg" := [255; 216]]> ∅))
  = <["old.jpg" := [255; 216]]> ∅.
Proof.
  apply detect_failure_writes_nothing.
  simpl. lia.
Defined.

Lemma detect_then_get_witness :
  ∃ dets name content,
    JsonDetections
      [mkDetection "right_eye" (7 # 8) (mkPixelBox 200 80 280 160);
       mkDetection "left_eye" (3 # 4) (mkPixelBox 40 80 120 160)]
      "http://localhost:5000/image/tmpk3v9x1.jpg"
    = JsonDetections dets ("http://" +:+ "localhost:5000" +:+ "/image/" +:+ name) ∧
    name = "tmpk3v9x1.jpg" ∧
    fst (get_image name
           (snd (detect sample_open sample_rgb sample_resample sample_model sample_imwrite
                   sample_mktemp sample_b64decode [1; 320; 320; 3] ["eye"]
                   "localhost:5000" (Parsed (JObject {["image" := FStr "/9g="]})) ∅)))
    = Ok {| status := 200; payload := JpegFile content |}.
Proof.
  destruct (detect_then_get sample_open sample_rgb sample_resample sample_model
              sample_imwrite sample_mktemp sample_b64decode [1; 320; 320; 3] ["eye"]
              "localhost:5000" (Parsed (JObject {["image" := FStr "/9g="]})) ∅
              {| status := 200;
                 payload := JsonDetections
                   [mkDetection "right_eye" (7 # 8) (mkPixelBox 200 80 280 160);
                    mkDetection "left_eye" (3 # 4) (mkPixelBox 40 80 120 160)]
                   "http://localhost:5000/image/tmpk3v9x1.jpg" |})
    as (dets & name & content & Hp & Hn & _ & Hget & _).
  - rewrite (detect_image_field _ _ _ _ _ _ _ _ _ _ _ _ "/9g=")
      by apply lookup_singleton_eq.
    reflexivity.
  - reflexivity.
  - exists dets, name, content. split; [exact Hp|]. split; [exact Hn|]. by rewrite Hget.
Defined.

Lemma detect_confidences_witness :
  (1 # 2 < confidence (mkDetection "left_eye" (3 # 4) (mkPixelBox 40 80 120 160)))%Q.
Proof.
  apply (detect_confidences sample_open sample_rgb sample_resample sample_model
           sample_imwrite sample_mktemp sample_b64decode [1; 320; 320; 3] ["eye"]
           "localhost:5000" (Parsed (JObject {["image" := FStr "/9g="]})) ∅
           [mkDetection "right_eye" (7 # 8) (mkPixelBox 200 80 280 160);
            mkDetection "left_eye" (3 # 4) (mkPixelBox 40 80 120 160)]
           "http://localhost:5000/image/tmpk3v9x1.jpg").
  - rewrite (detect_image_field _ _ _ _ _ _ _ _ _ _ _ _ "/9g=")
      by apply lookup_singleton_eq.
    reflexivity.
  - apply elem_of_cons. right. apply elem_of_cons. by left.
Defined.

Lemma preprocess_image_failures_witness :
  preprocess_image sample_open sample_rgb sample_resample [255; 216] [1; 320]
  = Raise IndexError ∧
  preprocess_image sample_open sample_rgb sample_resample [255; 216] [1; 0; 320; 3]
  = Raise ValueError.
Proof.
  split.
  - apply (preprocess_image_failures sample_open sample_rgb sample_resample
             [255; 216] (mkImage 640 480 3 [0]) [0] [1; 320] eq_refl eq_refl).
    simpl. lia.
  - apply (preprocess_image_failures sample_open sample_rgb sample_resample
             [255; 216] (mkImage 640 480 3 [0]) [0] [1; 0; 320; 3] eq_refl eq_refl)
      with 1 0 320 [3].
    + reflexivity.
    + left. lia.
Defined.
